(** * replicaAI: the Clone Request Panel

    A shallow embedding of the two React pages of the repository,

      - [Basic]  : src/app/page.tsx           (light only, preview only)
      - [Themed] : frontend/src/app/page.tsx  (dark-mode toggle, raw view,
                                               download)

    and of the parts of the browser they talk to.  The [async] submit
    handler is written in a small resumption monad whose nodes are the
    handler's side effects and its two [await]s; the page is a transition
    system whose events are what the user and the network can do to it. *)

From Stdlib Require Import ZArith NArith String Ascii DecimalString List.
From Stdlib.Strings Require Import Byte.
From stdpp Require Import base option list strings gmap.

Open Scope string_scope.
Open Scope list_scope.
Set Warnings "-register-all".

(** ** JavaScript values *)

Module JS.

(** The values the handler can see at run time.  [data] is typed [any] in
    the source, so the [clonedHtml] hook can hold any of them whatever its
    TypeScript annotation says.  Numbers are kept as integers: the pages
    only ever test them for truthiness and print them.  An object is the
    list of its own properties, the binding in force first. *)
Inductive jsval : Type :=
| JUndefined
| JNull
| JBool (b : bool)
| JNum (n : Z)
| JStr (s : string)
| JArr (items : list jsval)
| JObj (props : list (string * jsval))
| JError (name message : string).

(** What a promise settles with. *)
Inductive Settled (X : Type) : Type :=
| Fulfilled (x : X)
| Rejected (reason : jsval).
Arguments Fulfilled {X} x.
Arguments Rejected {X} reason.

(** The second argument of [fetch]. *)
Record RequestInit := {
  method : string;
  headers : list (string * string);
  body : string
}.

(** A [Response]: its status line and what [response.json()] settles
    with (the parsed body, or the parser's [SyntaxError]). *)
Record Response := {
  status : N;
  json : Settled jsval
}.

(** [response.ok]: the status is in the range 200-299. *)
Definition ok (r : Response) : bool :=
  ((200 <=? status r) && (status r <=? 299))%N.

(** What the JavaScript engine and the browser decide, not the pages. *)
Class Engine := {
  (** [JSON.stringify], applied by the pages to an object literal *)
  JSON_stringify : jsval -> string;
  (** the bytes a [Blob] holds for a string part *)
  utf8_encode : string -> list byte;
  (** message of the [TypeError] for [v.key] when [v] is null or undefined *)
  type_error_message : jsval -> string -> string;
  (** constraint validation of [<input type="url" required>] *)
  url_input_valid : string -> bool
}.

(** [if (v)], [v && ...] *)
Definition truthy (v : jsval) : bool :=
  match v with
  | JUndefined | JNull => false
  | JBool b => b
  | JNum n => negb (n =? 0)%Z
  | JStr s => negb (String.eqb s "")
  | JArr _ | JObj _ | JError _ _ => true
  end.

(** Template-literal conversion of a status code. *)
Definition number_to_string (n : N) : string :=
  NilZero.string_of_uint (N.to_uint n).

Definition int_to_string (n : Z) : string :=
  NilZero.string_of_int (Z.to_int n).

(** [String(v)], as the [Blob] constructor applies it to a part.  A number
    is printed in plain decimal, which is what JavaScript prints for an
    integer below 10^21 in magnitude. *)
Fixpoint ToString (v : jsval) : string :=
  match v with
  | JUndefined => "undefined"
  | JNull => "null"
  | JBool true => "true"
  | JBool false => "false"
  | JNum n => int_to_string n
  | JStr s => s
  | JArr items =>
      String.concat ","
        (map (fun x => match x with
                       | JUndefined | JNull => ""
                       | _ => ToString x
                       end) items)
  | JObj _ => "[object Object]"
  | JError name message =>
      if String.eqb message "" then name else name +:+ ": " +:+ message
  end.

Fixpoint assoc (key : string) (props : list (string * jsval)) : jsval :=
  match props with
  | [] => JUndefined
  | (k, v) :: rest => if String.eqb k key then v else assoc key rest
  end.

(** [v.key] for a key that no built-in prototype defines (such as
    [cloned_html]): it throws on null and undefined, reads an own property
    of an object, and is undefined on everything else. *)
Definition get_prop `{Engine} (v : jsval) (key : string) : Settled jsval :=
  match v with
  | JUndefined | JNull => Rejected (JError "TypeError" (type_error_message v key))
  | JObj props => Fulfilled (assoc key props)
  | _ => Fulfilled JUndefined
  end.

(** [new Error(msg)], [err instanceof Error], [err.message] *)
Definition new_Error (msg : string) : jsval := JError "Error" msg.

Definition instanceof_Error (v : jsval) : bool :=
  match v with JError _ _ => true | _ => false end.

Definition message_of (v : jsval) : string :=
  match v with JError _ m => m | _ => "" end.

(** *** A reference engine

    Enough of ECMAScript to run the pages on concrete inputs: strings are
    well-formed text held as their UTF-8 bytes. *)

Definition hex_digit (n : N) : ascii :=
  ascii_of_N (if (n <? 10)%N then 48 + n else 87 + n).

Definition dquote : string := String (ascii_of_N 34) EmptyString.

Definition quote_char (c : ascii) : string :=
  let n := N_of_ascii c in
  if (n =? 34)%N then "\" +:+ dquote
  else if (n =? 92)%N then "\\"
  else if (n =? 8)%N then "\b"
  else if (n =? 9)%N then "\t"
  else if (n =? 10)%N then "\n"
  else if (n =? 12)%N then "\f"
  else if (n =? 13)%N then "\r"
  else if (n <? 32)%N then
    "\u00" +:+ String (hex_digit (n / 16)) (String (hex_digit (n mod 16)) EmptyString)
  else String c EmptyString.

Fixpoint quote_body (s : string) : string :=
  match s with
  | EmptyString => EmptyString
  | String c rest => quote_char c +:+ quote_body rest
  end.

Definition quote_json (s : string) : string := dquote +:+ quote_body s +:+ dquote.

Fixpoint stringify (v : jsval) : string :=
  match v with
  | JUndefined | JNull => "null"
  | JBool true => "true"
  | JBool false => "false"
  | JNum n => int_to_string n
  | JStr s => quote_json s
  | JArr items => "[" +:+ String.concat "," (map stringify items) +:+ "]"
  | JObj props =>
      "{" +:+
      String.concat ","
        ((fix members (ps : list (string * jsval)) : list string :=
            match ps with
            | [] => []
            | (_, JUndefined) :: rest => members rest
            | (k, x) :: rest => (quote_json k +:+ ":" +:+ stringify x) :: members rest
            end) props)
      +:+ "}"
  | JError _ _ => "{}"
  end.

End JS.
Export JS.

(** ** The handler's effects and its [await]s *)

Module Async.

(** Side effects that take place at once: the state-hook setters of the
    submit handler, [e.preventDefault()] and [console.error]. *)
Inductive Action : Type :=
| PreventDefault
| SetLoading (b : bool)
| SetError (e : option string)
| SetClonedHtml (v : jsval)
| ConsoleError (label : string) (err : jsval).

(** An [async] function body: it returns, throws, performs an action and
    goes on, or waits at an [await] for the promise to settle. *)
Inductive prog (A : Type) : Type :=
| Ret (a : A)
| Throw (e : jsval)
| Act (a : Action) (k : prog A)
| AwaitFetch (url : string) (init : RequestInit) (k : Settled Response -> prog A)
| AwaitJson (r : Response) (k : Settled jsval -> prog A).
Arguments Ret {A} a.
Arguments Throw {A} e.
Arguments Act {A} a k.
Arguments AwaitFetch {A} url init k.
Arguments AwaitJson {A} r k.

Fixpoint bind {A B} (p : prog A) (f : A -> prog B) : prog B :=
  match p with
  | Ret a => f a
  | Throw e => Throw e
  | Act a k => Act a (bind k f)
  | AwaitFetch url init k => AwaitFetch url init (fun r => bind (k r) f)
  | AwaitJson r k => AwaitJson r (fun d => bind (k d) f)
  end.

#[export] Instance prog_ret : MRet prog := fun _ a => Ret a.
#[export] Instance prog_bind : MBind prog := fun _ _ f p => bind p f.

(** [await] of a settled promise: the value, or the reason thrown. *)
Definition settle {X} (r : Settled X) : prog X :=
  match r with
  | Fulfilled x => Ret x
  | Rejected e => Throw e
  end.

Definition act (a : Action) : prog unit := Act a (Ret tt).
Definition throw {A} (e : jsval) : prog A := Throw e.

Definition preventDefault : prog unit := act PreventDefault.
Definition setLoading (b : bool) : prog unit := act (SetLoading b).
Definition setError (e : option string) : prog unit := act (SetError e).
Definition setClonedHtml (v : jsval) : prog unit := act (SetClonedHtml v).
Definition console_error (label : string) (err : jsval) : prog unit :=
  act (ConsoleError label err).

(** [await fetch(url, init)] and [await response.json()] *)
Definition fetch (url : string) (init : RequestInit) : prog Response :=
  AwaitFetch url init settle.
Definition response_json (r : Response) : prog jsval :=
  AwaitJson r settle.

(** [try { body } catch (err) { handler err }] *)
Fixpoint try_catch {A} (body : prog A) (handler : jsval -> prog A) : prog A :=
  match body with
  | Ret a => Ret a
  | Throw e => handler e
  | Act a k => Act a (try_catch k handler)
  | AwaitFetch url init k => AwaitFetch url init (fun r => try_catch (k r) handler)
  | AwaitJson r k => AwaitJson r (fun d => try_catch (k d) handler)
  end.

(** [try { body } finally { fin }]: [fin] runs on both exits, and the
    exit of [body] stands unless [fin] throws itself. *)
Fixpoint try_finally {A} (body : prog A) (fin : prog unit) : prog A :=
  match body with
  | Ret a => bind fin (fun _ => Ret a)
  | Throw e => bind fin (fun _ => Throw e)
  | Act a k => Act a (try_finally k fin)
  | AwaitFetch url init k => AwaitFetch url init (fun r => try_finally (k r) fin)
  | AwaitJson r k => AwaitJson r (fun d => try_finally (k d) fin)
  end.

Definition try_catch_finally {A} (body : prog A) (handler : jsval -> prog A)
    (fin : prog unit) : prog A :=
  try_finally (try_catch body handler) fin.

(** What an observer of the page sees a handler do. *)
Inductive Effect : Type :=
| Did (a : Action)
| Requested (url : string) (init : RequestInit)
| ReadBody (r : Response).

(** A handler parked at an [await], with the rest of its body. *)
Inductive Suspended : Type :=
| OnFetch (url : string) (init : RequestInit) (k : Settled Response -> prog unit)
| OnJson (r : Response) (k : Settled jsval -> prog unit).

Inductive Status : Type :=
| Finished
| Uncaught (e : jsval)
| Waiting (w : Suspended).

Section Exec.
Context {S : Type} (apply : Action -> S -> S).

(** Run a handler up to its next [await]: the state it leaves, what it
    did, and whether it is done. *)
Fixpoint exec (p : prog unit) (st : S) : S * list Effect * Status :=
  match p with
  | Ret _ => (st, [], Finished)
  | Throw e => (st, [], Uncaught e)
  | Act a k =>
      let '(st', log, status) := exec k (apply a st) in
      (st', Did a :: log, status)
  | AwaitFetch url init k => (st, [Requested url init], Waiting (OnFetch url init k))
  | AwaitJson r k => (st, [ReadBody r], Waiting (OnJson r k))
  end.

(** Run a handler to its end against a backend that answers every
    request: [backend url init] is what [fetch] settles with. *)
Fixpoint run (backend : string -> RequestInit -> Settled Response)
    (p : prog unit) (st : S) : S * list Effect * option jsval :=
  match p with
  | Ret _ => (st, [], None)
  | Throw e => (st, [], Some e)
  | Act a k =>
      let '(st', log, exn) := run backend k (apply a st) in
      (st', Did a :: log, exn)
  | AwaitFetch url init k =>
      let '(st', log, exn) := run backend (k (backend url init)) st in
      (st', Requested url init :: log, exn)
  | AwaitJson r k =>
      let '(st', log, exn) := run backend (k (json r)) st in
      (st', ReadBody r :: log, exn)
  end.

(** Precondition of a handler for: [Q] holds when it ends, and [I] holds
    whenever it is parked at an [await], given that it is resumed in a
    state where [I] still holds (other events may have run meanwhile). *)
Fixpoint wp (I Q : S -> Prop) (p : prog unit) (st : S) : Prop :=
  match p with
  | Ret _ | Throw _ => Q st
  | Act a k => wp I Q k (apply a st)
  | AwaitFetch _ _ k => I st /\ forall o st', I st' -> wp I Q (k o) st'
  | AwaitJson r k => I st /\ forall st', I st' -> wp I Q (k (json r)) st'
  end.

Definition parked_ok (I Q : S -> Prop) (w : Suspended) : Prop :=
  match w with
  | OnFetch _ _ k => forall o st', I st' -> wp I Q (k o) st'
  | OnJson r k => forall st', I st' -> wp I Q (k (json r)) st'
  end.
End Exec.

End Async.
Export Async.

(** ** src/app/page.tsx *)

Module Basic.

(** The four [useState] hooks of [Home]. *)
Record State := {
  targetUrl : string;
  loading : bool;
  clonedHtml : jsval;
  error : option string
}.

Definition initial : State :=
  {| targetUrl := ""; loading := false; clonedHtml := JNull; error := None |}.

Definition setTargetUrl (v : string) (st : State) : State :=
  {| targetUrl := v; loading := loading st;
     clonedHtml := clonedHtml st; error := error st |}.

Definition apply (a : Action) (st : State) : State :=
  match a with
  | PreventDefault | ConsoleError _ _ => st
  | SetLoading b =>
      {| targetUrl := targetUrl st; loading := b;
         clonedHtml := clonedHtml st; error := error st |}
  | SetError e =>
      {| targetUrl := targetUrl st; loading := loading st;
         clonedHtml := clonedHtml st; error := e |}
  | SetClonedHtml v =>
      {| targetUrl := targetUrl st; loading := loading st;
         clonedHtml := v; error := error st |}
  end.

(** [handleSubmit]; [targetUrl] is the value of the hook in the render
    that created the handler. *)
Definition handleSubmit `{Engine} (targetUrl : string) : prog unit :=
  preventDefault;;
  setLoading true;;
  setError None;;
  setClonedHtml JNull;;
  try_catch_finally
    (response ← fetch "http://localhost:8000/clone"
        {| method := "POST";
           headers := [("Content-Type", "application/json")];
           body := JSON_stringify (JObj [("target_url", JStr targetUrl)]) |};
     (if negb (ok response)
      then throw (new_Error ("HTTP error! status: " +:+ number_to_string (status response)))
      else mret tt);;
     data ← response_json response;
     cloned_html ← settle (get_prop data "cloned_html");
     setClonedHtml cloned_html)
    (λ err,
      setError (Some (if instanceof_Error err then message_of err
                      else "An error occurred"));;
      console_error "Error cloning website:" err)
    (setLoading false).

(** What [Home] returns, as far as it depends on the hooks. *)
Record View := {
  input_value : string;
  input_disabled : bool;
  submit_disabled : bool;
  submit_label : string;
  error_box : option string;
  spinner : bool;
  preview_srcDoc : option jsval
}.

Definition Home (st : State) : View :=
  {| input_value := targetUrl st;
     input_disabled := loading st;
     submit_disabled := loading st;
     submit_label := if loading st then "Cloning..." else "Clone Website";
     error_box := match error st with
                  | Some msg => if String.eqb msg "" then None else Some msg
                  | None => None
                  end;
     spinner := loading st;
     preview_srcDoc := if truthy (clonedHtml st) then Some (clonedHtml st) else None |}.

(** The page with the handlers it has parked at an [await]. *)
Record Page := {
  ui : State;
  pending : list Suspended
}.

Definition mounted : Page := {| ui := initial; pending := [] |}.

(** What can happen to the page: the user types or submits the form, a
    request of a parked handler settles, the body of a response has been
    read. *)
Inductive Event : Type :=
| Typed (text : string)
| Submitted
| FetchSettled (i : nat) (outcome : Settled Response)
| BodyRead (i : nat).

(** Resume the handler parked at [i] with the rest [p] of its body. *)
Definition resume (i : nat) (p : prog unit) (pg : Page) : Page :=
  let '(st, _, status) := exec apply p (ui pg) in
  {| ui := st;
     pending := match status with
                | Waiting w => <[i:=w]> (pending pg)
                | _ => delete i (pending pg)
                end |}.

(** One event; [None] when the page does not allow it: a disabled control
    takes no input, a form whose submit button is disabled or whose field
    is invalid is not submitted, and only a parked handler is resumed. *)
Definition step `{Engine} (ev : Event) (pg : Page) : option Page :=
  match ev with
  | Typed text =>
      if input_disabled (Home (ui pg)) then None
      else Some {| ui := setTargetUrl text (ui pg); pending := pending pg |}
  | Submitted =>
      if submit_disabled (Home (ui pg)) then None
      else if negb (url_input_valid (targetUrl (ui pg))) then None
      else
        let '(st, _, status) := exec apply (handleSubmit (targetUrl (ui pg))) (ui pg) in
        Some {| ui := st;
                pending := match status with
                           | Waiting w => pending pg ++ [w]
                           | _ => pending pg
                           end |}
  | FetchSettled i outcome =>
      match pending pg !! i with
      | Some (OnFetch _ _ k) => Some (resume i (k outcome) pg)
      | _ => None
      end
  | BodyRead i =>
      match pending pg !! i with
      | Some (OnJson r k) => Some (resume i (k (json r)) pg)
      | _ => None
      end
  end.

Fixpoint steps `{Engine} (evs : list Event) (pg : Page) : option Page :=
  match evs with
  | [] => Some pg
  | ev :: rest => step ev pg ≫= steps rest
  end.

End Basic.

(** ** The browser's side of a download *)

Module Browser.

Record Blob := {
  blob_bytes : list byte;
  blob_type : string
}.

(** An [<a>] element. Object URLs are named by their serial number. *)
Record Anchor := {
  node : nat;
  href : option nat;
  download : option string
}.

Record SavedFile := {
  file_name : string;
  file_type : string;
  file_bytes : list byte
}.

Record Browser := {
  object_urls : gmap nat Blob;     (* the blob URL store *)
  next_url : nat;
  next_node : nat;
  body_children : list Anchor;     (* what the page appended to document.body *)
  saved : list SavedFile           (* downloads started, oldest first *)
}.

Definition fresh : Browser :=
  {| object_urls := ∅; next_url := 0; next_node := 0;
     body_children := []; saved := [] |}.

(** [new Blob([part], { type })] *)
Definition new_Blob `{Engine} (part : jsval) (type : string) : Blob :=
  {| blob_bytes := utf8_encode (ToString part); blob_type := type |}.

(** [URL.createObjectURL(blob)] *)
Definition createObjectURL (blob : Blob) (b : Browser) : nat * Browser :=
  (next_url b,
   {| object_urls := <[next_url b := blob]> (object_urls b);
      next_url := S (next_url b); next_node := next_node b;
      body_children := body_children b; saved := saved b |}).

(** [URL.revokeObjectURL(url)] *)
Definition revokeObjectURL (url : nat) (b : Browser) : Browser :=
  {| object_urls := delete url (object_urls b);
     next_url := next_url b; next_node := next_node b;
     body_children := body_children b; saved := saved b |}.

(** [document.createElement("a")] *)
Definition createElement_a (b : Browser) : Anchor * Browser :=
  ({| node := next_node b; href := None; download := None |},
   {| object_urls := object_urls b;
      next_url := next_url b; next_node := S (next_node b);
      body_children := body_children b; saved := saved b |}).

Definition appendChild (a : Anchor) (b : Browser) : Browser :=
  {| object_urls := object_urls b;
     next_url := next_url b; next_node := next_node b;
     body_children := body_children b ++ [a]; saved := saved b |}.

Definition removeChild (a : Anchor) (b : Browser) : Browser :=
  {| object_urls := object_urls b;
     next_url := next_url b; next_node := next_node b;
     body_children := List.filter (fun c => negb (Nat.eqb (node c) (node a))) (body_children b);
     saved := saved b |}.

(** [a.click()] on a link with a [download] attribute: the browser starts
    saving what the link's object URL names at that moment. *)
Definition click (a : Anchor) (b : Browser) : Browser :=
  match href a, download a with
  | Some url, Some name =>
      match object_urls b !! url with
      | Some blob =>
          {| object_urls := object_urls b;
             next_url := next_url b; next_node := next_node b;
             body_children := body_children b;
             saved := saved b ++ [{| file_name := name;
                                     file_type := blob_type blob;
                                     file_bytes := blob_bytes blob |}] |}
      | None => b
      end
  | _, _ => b
  end.

End Browser.
Export Browser.

(** ** frontend/src/app/page.tsx *)

Module Themed.

(** The six [useState] hooks of [Home]. *)
Record State := {
  targetUrl : string;
  loading : bool;
  clonedHtml : jsval;
  error : option string;
  showRawHtml : bool;
  isDarkMode : bool
}.

Definition initial : State :=
  {| targetUrl := ""; loading := false; clonedHtml := JNull; error := None;
     showRawHtml := false; isDarkMode := false |}.

Definition setTargetUrl (v : string) (st : State) : State :=
  {| targetUrl := v; loading := loading st;
     clonedHtml := clonedHtml st; error := error st;
     showRawHtml := showRawHtml st; isDarkMode := isDarkMode st |}.

Definition setShowRawHtml (v : bool) (st : State) : State :=
  {| targetUrl := targetUrl st; loading := loading st;
     clonedHtml := clonedHtml st; error := error st;
     showRawHtml := v; isDarkMode := isDarkMode st |}.

Definition setIsDarkMode (v : bool) (st : State) : State :=
  {| targetUrl := targetUrl st; loading := loading st;
     clonedHtml := clonedHtml st; error := error st;
     showRawHtml := showRawHtml st; isDarkMode := v |}.

Definition apply (a : Action) (st : State) : State :=
  match a with
  | PreventDefault | ConsoleError _ _ => st
  | SetLoading b =>
      {| targetUrl := targetUrl st; loading := b;
         clonedHtml := clonedHtml st; error := error st;
         showRawHtml := showRawHtml st; isDarkMode := isDarkMode st |}
  | SetError e =>
      {| targetUrl := targetUrl st; loading := loading st;
         clonedHtml := clonedHtml st; error := e;
         showRawHtml := showRawHtml st; isDarkMode := isDarkMode st |}
  | SetClonedHtml v =>
      {| targetUrl := targetUrl st; loading := loading st;
         clonedHtml := v; error := error st;
         showRawHtml := showRawHtml st; isDarkMode := isDarkMode st |}
  end.

(** [handleSubmit]; [targetUrl] is the value of the hook in the render
    that created the handler. *)
Definition handleSubmit `{Engine} (targetUrl : string) : prog unit :=
  preventDefault;;
  setLoading true;;
  setError None;;
  setClonedHtml JNull;;
  try_catch_finally
    (response ← fetch "http://localhost:8000/clone"
        {| method := "POST";
           headers := [("Content-Type", "application/json")];
           body := JSON_stringify (JObj [("target_url", JStr targetUrl)]) |};
     (if negb (ok response)
      then throw (new_Error ("HTTP error! status: " +:+ number_to_string (status response)))
      else mret tt);;
     data ← response_json response;
     cloned_html ← settle (get_prop data "cloned_html");
     setClonedHtml cloned_html)
    (λ err,
      setError (Some (if instanceof_Error err then message_of err
                      else "An error occurred"));;
      console_error "Error cloning website:" err)
    (setLoading false).

(** The theme button's [onClick] and the raw-HTML button's [onClick]. *)
Definition toggleDarkMode (st : State) : State :=
  setIsDarkMode (negb (isDarkMode st)) st.

Definition toggleRawHtml (st : State) : State :=
  setShowRawHtml (negb (showRawHtml st)) st.

(** The download button's [onClick]. *)
Definition downloadHtml `{Engine} (clonedHtml : jsval) (b : Browser) : Browser :=
  let blob := new_Blob clonedHtml "text/html" in
  let '(url, b) := createObjectURL blob b in
  let '(a, b) := createElement_a b in
  let a := {| node := node a; href := Some url; download := download a |} in
  let a := {| node := node a; href := href a; download := Some "cloned_site.html" |} in
  let b := appendChild a b in
  let b := click a b in
  let b := removeChild a b in
  revokeObjectURL url b.

Inductive Icon := Moon | Sun.

Inductive Content : Type :=
| RawPre (text : jsval)
| Iframe (srcDoc : jsval) (border : string).

Record ResultView := {
  heading_class : string;
  raw_button_label : string;
  content : Content
}.

(** What [Home] returns, as far as it depends on the hooks. *)
Record View := {
  root_class : string;
  card_class : string;
  theme_icon : Icon;
  title_class : string;
  subtitle_class : string;
  label_class : string;
  input_class : string;
  input_value : string;
  input_disabled : bool;
  submit_disabled : bool;
  submit_label : string;
  error_box : option string;
  spinner : option string;
  result : option ResultView
}.

Definition Home (st : State) : View :=
  let dark := isDarkMode st in
  {| root_class := "min-h-screen " +:+ (if dark then "bg-gray-900" else "bg-gray-50 text-gray-900");
     card_class := "rounded-lg shadow-sm p-8 space-y-8 " +:+ (if dark then "bg-gray-800" else "bg-white");
     theme_icon := if dark then Moon else Sun;
     title_class := "text-3xl font-bold " +:+ (if dark then "text-white" else "text-gray-900");
     subtitle_class := "text-gray-600 " +:+ (if dark then "text-white" else "");
     label_class := "block text-sm font-medium " +:+ (if dark then "text-white" else "text-gray-700");
     input_class :=
       "w-full px-4 py-3 border rounded-lg focus:outline-none focus:ring-2 focus:ring-blue-500 focus:border-transparent transition-colors "
       +:+ (if dark then "border-gray-600 bg-gray-700 text-white placeholder-white"
            else "border-gray-300 bg-white text-gray-900 placeholder-gray-500");
     input_value := targetUrl st;
     input_disabled := loading st;
     submit_disabled := loading st;
     submit_label := if loading st then "Cloning..." else "Clone Website";
     error_box := match error st with
                  | Some msg => if String.eqb msg "" then None else Some msg
                  | None => None
                  end;
     spinner := if loading st
                then Some (if dark then "text-white" else "text-gray-600")
                else None;
     result :=
       if truthy (clonedHtml st) then
         Some {| heading_class := "text-xl font-semibold " +:+ (if dark then "text-white" else "text-gray-900");
                 raw_button_label := if showRawHtml st then "Hide Raw HTML" else "Show Raw HTML";
                 content := if showRawHtml st then RawPre (clonedHtml st)
                            else Iframe (clonedHtml st)
                                   ("1px solid " +:+ (if dark then "#4b5563" else "#e5e7eb")) |}
       else None |}.

(** The page with the handlers it has parked at an [await], and the
    browser it downloads through. *)
Record Page := {
  ui : State;
  pending : list Suspended;
  browser : Browser
}.

Definition mounted : Page := {| ui := initial; pending := []; browser := fresh |}.

Inductive Event : Type :=
| Typed (text : string)
| Submitted
| FetchSettled (i : nat) (outcome : Settled Response)
| BodyRead (i : nat)
| ThemeClicked
| RawClicked
| DownloadClicked.

(** Resume the handler parked at [i] with the rest [p] of its body. *)
Definition resume (i : nat) (p : prog unit) (pg : Page) : Page :=
  let '(st, _, status) := exec apply p (ui pg) in
  {| ui := st;
     pending := match status with
                | Waiting w => <[i:=w]> (pending pg)
                | _ => delete i (pending pg)
                end;
     browser := browser pg |}.

(** One event; [None] when the page does not allow it: a disabled control
    takes no input, a form whose submit button is disabled or whose field
    is invalid is not submitted, only a parked handler is resumed, and the
    raw-HTML and download buttons exist only while a result is shown. *)
Definition step `{Engine} (ev : Event) (pg : Page) : option Page :=
  match ev with
  | Typed text =>
      if input_disabled (Home (ui pg)) then None
      else Some {| ui := setTargetUrl text (ui pg);
                   pending := pending pg; browser := browser pg |}
  | Submitted =>
      if submit_disabled (Home (ui pg)) then None
      else if negb (url_input_valid (targetUrl (ui pg))) then None
      else
        let '(st, _, status) := exec apply (handleSubmit (targetUrl (ui pg))) (ui pg) in
        Some {| ui := st;
                pending := match status with
                           | Waiting w => pending pg ++ [w]
                           | _ => pending pg
                           end;
                browser := browser pg |}
  | FetchSettled i outcome =>
      match pending pg !! i with
      | Some (OnFetch _ _ k) => Some (resume i (k outcome) pg)
      | _ => None
      end
  | BodyRead i =>
      match pending pg !! i with
      | Some (OnJson r k) => Some (resume i (k (json r)) pg)
      | _ => None
      end
  | ThemeClicked =>
      Some {| ui := toggleDarkMode (ui pg);
              pending := pending pg; browser := browser pg |}
  | RawClicked =>
      match result (Home (ui pg)) with
      | Some _ => Some {| ui := toggleRawHtml (ui pg);
                          pending := pending pg; browser := browser pg |}
      | None => None
      end
  | DownloadClicked =>
      match result (Home (ui pg)) with
      | Some _ => Some {| ui := ui pg; pending := pending pg;
                          browser := downloadHtml (clonedHtml (ui pg)) (browser pg) |}
      | None => None
      end
  end.

Fixpoint steps `{Engine} (evs : list Event) (pg : Page) : option Page :=
  match evs with
  | [] => Some pg
  | ev :: rest => step ev pg ≫= steps rest
  end.

End Themed.

(** ** A reference engine instance, for running the pages

    Its [url_input_valid] is narrower than a browser's, which takes any
    absolute URL: it takes the http and https URLs the examples type. *)

Definition reference_engine : Engine :=
  {| JSON_stringify := stringify;
     utf8_encode := list_byte_of_string;
     type_error_message := fun v key =>
       "Cannot read properties of " +:+ ToString v +:+ " (reading '" +:+ key +:+ "')";
     url_input_valid := fun text => String.prefix "http://" text || String.prefix "https://" text |}.

(** ** The pages on concrete inputs *)

Definition always (answer : Settled Response) : string -> RequestInit -> Settled Response :=
  fun _ _ => answer.

Definition server_error : Response :=
  {| status := 500; json := Fulfilled (JObj [("detail", JStr "Internal Server Error")]) |}.

Definition no_field : Response :=
  {| status := 200; json := Fulfilled (JObj [("title", JStr "Hi")]) |}.

Definition not_json : Response :=
  {| status := 200;
     json := Rejected (JError "SyntaxError" "Unexpected token < in JSON at position 0") |}.

Definition hello : Response :=
  {| status := 200;
     json := Fulfilled (JObj [("cloned_html", JStr "<html><body>Hi</body></html>")]) |}.

Definition example_url : string := "https://example.com".

Definition markup : string := "<html><body>Hi</body></html>".

(** A failed submission followed by a successful one. *)
Definition two_submissions : list Basic.Event :=
  [Basic.Typed example_url; Basic.Submitted;
   Basic.FetchSettled 0 (Fulfilled server_error);
   Basic.Submitted;
   Basic.FetchSettled 0 (Fulfilled hello); Basic.BodyRead 0].

(** A submission whose request has not settled yet. *)
Definition in_flight : list Basic.Event :=
  [Basic.Typed example_url; Basic.Submitted].

(** The basic page with the input filled in. *)
Definition filled_in : Basic.Page :=
  {| Basic.ui := Basic.setTargetUrl example_url Basic.initial; Basic.pending := [] |}.

(** The themed page showing a result. *)
Definition showing_result : Themed.Page :=
  {| Themed.ui :=
       {| Themed.targetUrl := example_url; Themed.loading := false;
          Themed.clonedHtml := JStr markup; Themed.error := None;
          Themed.showRawHtml := false; Themed.isDarkMode := false |};
     Themed.pending := [];
     Themed.browser := fresh |}.

(** The request never reaches the backend. *)
Definition offline : Settled Response :=
  Rejected (JError "TypeError" "Failed to fetch").

(** The backend answers with an empty clone. *)
Definition empty_clone : Response :=
  {| status := 200; json := Fulfilled (JObj [("cloned_html", JStr "")]) |}.

(** The backend answers with the number 0 for a clone. *)
Definition zero_clone : Response :=
  {| status := 200; json := Fulfilled (JObj [("cloned_html", JNum 0)]) |}.

(** A visit to the themed page: a submission, the theme switched while it
    is in flight, the result looked at as raw text and downloaded twice. *)
Definition themed_visit : list Themed.Event :=
  [Themed.Typed example_url; Themed.Submitted; Themed.ThemeClicked;
   Themed.FetchSettled 0 (Fulfilled hello); Themed.BodyRead 0;
   Themed.RawClicked; Themed.DownloadClicked; Themed.DownloadClicked].

(** The themed page with a request in flight. *)
Definition themed_in_flight : list Themed.Event :=
  [Themed.Typed example_url; Themed.Submitted].

(** ** Vocabulary of the specification *)

(** The request of section 6: where it goes and what it carries. *)
Definition endpoint : string := "http://localhost:8000/clone".

Definition clone_request `{Engine} (url : string) : RequestInit :=
  {| method := "POST";
     headers := [("Content-Type", "application/json")];
     body := JSON_stringify (JObj [("target_url", JStr url)]) |}.

(** The requests a handler issued, in order. *)
Fixpoint requests (log : list Effect) : list (string * RequestInit) :=
  match log with
  | [] => []
  | Requested url init :: rest => (url, init) :: requests rest
  | _ :: rest => requests rest
  end.

(** The bodies a handler read, in order. *)
Fixpoint bodies_read (log : list Effect) : list Response :=
  match log with
  | [] => []
  | ReadBody r :: rest => r :: bodies_read rest
  | _ :: rest => bodies_read rest
  end.

(** Steps (a) to (d) of a submission. *)
Definition opening `{Engine} (url : string) : list Effect :=
  [Did PreventDefault; Did (SetLoading true); Did (SetError None);
   Did (SetClonedHtml JNull); Requested endpoint (clone_request url)].

(** The message shown for a thrown value. *)
Definition describe (err : jsval) : string :=
  if instanceof_Error err then message_of err else "An error occurred".

(** Step (f): the message is stored, and the value logged to the console. *)
Definition on_failure (err : jsval) : list Effect :=
  [Did (SetError (Some (describe err)));
   Did (ConsoleError "Error cloning website:" err)].

Definition http_error_message (code : N) : string :=
  "HTTP error! status: " +:+ number_to_string code.

(** The ways a submission fails (section 7), with the body it read, if
    any, and the value thrown: the request itself fails, the status is not
    2xx, the body is not JSON, the parsed body has no properties to read. *)
Inductive Failure `{Engine} : Settled Response -> list Effect -> jsval -> Prop :=
| network_failure e :
    Failure (Rejected e) [] e
| http_failure r :
    ok r = false ->
    Failure (Fulfilled r) [] (new_Error (http_error_message (status r)))
| parse_failure r e :
    ok r = true -> json r = Rejected e ->
    Failure (Fulfilled r) [ReadBody r] e
| access_failure r d e :
    ok r = true -> json r = Fulfilled d ->
    get_prop d "cloned_html" = Rejected e ->
    Failure (Fulfilled r) [ReadBody r] e.

(** A submission succeeds with the [cloned_html] property of the body. *)
Inductive Success `{Engine} : Settled Response -> Response -> jsval -> Prop :=
| cloned r d html :
    ok r = true -> json r = Fulfilled d ->
    get_prop d "cloned_html" = Fulfilled html ->
    Success (Fulfilled r) r html.

(** A page variant, as the submit handler sees it. *)
Record Variant := {
  St : Type;
  v_apply : Action -> St -> St;
  v_handleSubmit : Engine -> string -> prog unit;
  v_loading : St -> bool;
  v_result : St -> jsval;
  v_error : St -> option string;
  v_input_disabled : St -> bool;
  v_submit_disabled : St -> bool
}.

Definition basic : Variant :=
  {| St := Basic.State; v_apply := Basic.apply;
     v_handleSubmit := @Basic.handleSubmit;
     v_loading := Basic.loading; v_result := Basic.clonedHtml;
     v_error := Basic.error;
     v_input_disabled := fun st => Basic.input_disabled (Basic.Home st);
     v_submit_disabled := fun st => Basic.submit_disabled (Basic.Home st) |}.

Definition themed : Variant :=
  {| St := Themed.State; v_apply := Themed.apply;
     v_handleSubmit := @Themed.handleSubmit;
     v_loading := Themed.loading; v_result := Themed.clonedHtml;
     v_error := Themed.error;
     v_input_disabled := fun st => Themed.input_disabled (Themed.Home st);
     v_submit_disabled := fun st => Themed.submit_disabled (Themed.Home st) |}.

(** The contract of [submit] (section 4.1): the handler runs (a) to (d)
    and parks with Error and Result cleared; once the request has settled
    it has done exactly one of (e) and (f), then (g), and nothing else. *)
Definition submit_contract `{E : Engine} (V : Variant) : Prop :=
  forall (url : string) (backend : string -> RequestInit -> Settled Response)
         (st : St V),
    (exists st0 w,
        exec (v_apply V) (v_handleSubmit V E url) st = (st0, opening url, Waiting w)
        /\ v_loading V st0 = true
        /\ v_error V st0 = None
        /\ v_result V st0 = JNull)
    /\ exists st' settlement,
        run (v_apply V) backend (v_handleSubmit V E url) st
        = (st', opening url ++ settlement ++ [Did (SetLoading false)], None)
        /\ requests (opening url ++ settlement ++ [Did (SetLoading false)])
           = [(endpoint, clone_request url)]
        /\ v_loading V st' = false
        /\ ((exists r html,
                Success (backend endpoint (clone_request url)) r html
                /\ settlement = [ReadBody r; Did (SetClonedHtml html)]
                /\ v_result V st' = html
                /\ v_error V st' = None)
            \/ (exists read err,
                Failure (backend endpoint (clone_request url)) read err
                /\ settlement = read ++ on_failure err
                /\ v_result V st' = JNull
                /\ v_error V st' = Some (describe err))).

(** Scenario C and section 7 (2): a status outside 2xx ends the
    submission with the synthesized message, the body unread, Result
    empty and the controls enabled again. *)
Definition http_error_contract `{E : Engine} (V : Variant) : Prop :=
  forall (url : string) (backend : string -> RequestInit -> Settled Response)
         (st : St V) (r : Response),
    backend endpoint (clone_request url) = Fulfilled r ->
    (status r < 200 \/ 299 < status r)%N ->
    exists st' log,
      run (v_apply V) backend (v_handleSubmit V E url) st = (st', log, None)
      /\ v_error V st' = Some ("HTTP error! status: " +:+ number_to_string (status r))
      /\ v_result V st' = JNull
      /\ v_loading V st' = false
      /\ v_input_disabled V st' = false
      /\ v_submit_disabled V st' = false
      /\ bodies_read log = [].

(** The parsed body is an object with an own [cloned_html] property. *)
Definition has_cloned_html (d : jsval) : bool :=
  match d with
  | JObj props => existsb (fun kv => String.eqb (fst kv) "cloned_html") props
  | _ => false
  end.

(** Section 7 (3) as the specification words it: a 2xx response whose body
    is not JSON, or is JSON without the field, leaves a message in Error. *)
Definition shape_failure_claim `{E : Engine} (V : Variant) : Prop :=
  forall (url : string) (backend : string -> RequestInit -> Settled Response)
         (st : St V) (r : Response),
    backend endpoint (clone_request url) = Fulfilled r ->
    ok r = true ->
    (exists e, json r = Rejected e)
    \/ (exists d, json r = Fulfilled d /\ has_cloned_html d = false) ->
    exists st' log msg,
      run (v_apply V) backend (v_handleSubmit V E url) st = (st', log, None)
      /\ v_error V st' = Some msg.

(** Section 7 (3) as the pages have it: a 2xx response whose body is not
    JSON fails with the parser's message; the JSON body [null] fails with
    the engine's [TypeError] for the property read; any other JSON body
    without the field is no failure, Result becomes undefined and Error
    stays empty. *)
Definition shape_contract `{E : Engine} (V : Variant) : Prop :=
  forall (url : string) (backend : string -> RequestInit -> Settled Response)
         (st : St V) (r : Response),
    backend endpoint (clone_request url) = Fulfilled r ->
    ok r = true ->
    exists st' log,
      run (v_apply V) backend (v_handleSubmit V E url) st = (st', log, None)
      /\ v_loading V st' = false
      /\ (forall e, json r = Rejected e ->
            v_error V st' = Some (describe e) /\ v_result V st' = JNull)
      /\ (json r = Fulfilled JNull ->
            v_error V st' = Some (type_error_message JNull "cloned_html")
            /\ v_result V st' = JNull)
      /\ (forall d, json r = Fulfilled d -> d <> JNull -> d <> JUndefined ->
            has_cloned_html d = false ->
            v_error V st' = None /\ v_result V st' = JUndefined).

(** Section 6: every run of the handler issues the one request there. *)
Definition request_contract `{E : Engine} (V : Variant) : Prop :=
  forall (url : string) (backend : string -> RequestInit -> Settled Response)
         (st : St V),
    requests (run (v_apply V) backend (v_handleSubmit V E url) st).1.2
    = [("http://localhost:8000/clone",
        {| method := "POST";
           headers := [("Content-Type", "application/json")];
           body := JSON_stringify (JObj [("target_url", JStr url)]) |})].

(** The two shapes of the panel state: [quiet] while a submission is in
    flight, [settled] otherwise (P1). *)
Definition quiet (V : Variant) (st : St V) : Prop :=
  v_loading V st = true /\ v_error V st = None /\ v_result V st = JNull.

Definition settled (V : Variant) (st : St V) : Prop :=
  v_loading V st = false /\ (v_error V st = None \/ v_result V st = JNull).

(** What holds of a page between any two events: nothing is parked and
    the state is settled, or one handler is parked, the state is quiet,
    and the parked handler will settle it. *)
Definition page_inv (V : Variant) (st : St V) (parked : list Suspended) : Prop :=
  match parked with
  | [] => settled V st
  | [w] => quiet V st /\ parked_ok (v_apply V) (quiet V) (settled V) w
  | _ => False
  end.

(** What the themed page has in common with the basic one: its state
    without the two extra hooks, and the events both pages know. *)
Definition forget (st : Themed.State) : Basic.State :=
  {| Basic.targetUrl := Themed.targetUrl st;
     Basic.loading := Themed.loading st;
     Basic.clonedHtml := Themed.clonedHtml st;
     Basic.error := Themed.error st |}.

Definition themed_event (ev : Basic.Event) : Themed.Event :=
  match ev with
  | Basic.Typed text => Themed.Typed text
  | Basic.Submitted => Themed.Submitted
  | Basic.FetchSettled i outcome => Themed.FetchSettled i outcome
  | Basic.BodyRead i => Themed.BodyRead i
  end.

(** The two pages agree: same hooks in common, same handlers parked. *)
Definition agree (b : Basic.Page) (t : Themed.Page) : Prop :=
  Basic.ui b = forget (Themed.ui t) /\ Basic.pending b = Themed.pending t.

Definition agree_opt (b : option Basic.Page) (t : option Themed.Page) : Prop :=
  match b, t with
  | Some b, Some t => agree b t
  | None, None => True
  | _, _ => False
  end.

(** The file the download button saves for a Result string. *)
Definition cloned_site `{Engine} (html : string) : SavedFile :=
  {| file_name := "cloned_site.html";
     file_type := "text/html";
     file_bytes := utf8_encode html |}.

(** ** Further vocabulary: outcomes, liveness, what the page shows *)

(** A failure as the specification counts it (section 4.1 (f), section
    7): the request itself fails, the status is not 2xx, or the body of a
    2xx response is malformed, that is, not JSON or without the field. *)
Definition failure_in_spec (o : Settled Response) : Prop :=
  match o with
  | Rejected _ => True
  | Fulfilled r =>
      ok r = false
      \/ (exists e, json r = Rejected e)
      \/ (exists d, json r = Fulfilled d /\ has_cloned_html d = false)
  end.

(** Clause (f) as the specification words it: every such failure leaves
    a message in Error. *)
Definition failure_message_claim `{E : Engine} (V : Variant) : Prop :=
  forall (url : string) (backend : string -> RequestInit -> Settled Response)
         (st : St V),
    failure_in_spec (backend endpoint (clone_request url)) ->
    exists msg,
      v_error V (run (v_apply V) backend (v_handleSubmit V E url) st).1.1 = Some msg.

(** What [{clonedHtml && (...)}] leaves in the card when [clonedHtml] is
    falsy.  The expression is then [clonedHtml] itself, and React renders
    a number as its text and nothing for false, null, undefined and the
    empty string.  (When [clonedHtml] is truthy the expression is the
    result panel of [Home].) *)
Definition falsy_child (clonedHtml : jsval) : option string :=
  if truthy clonedHtml then None
  else match clonedHtml with
       | JNum n => Some (int_to_string n)
       | _ => None
       end.

(** A request that never reaches the server, or whose answer never
    arrives: the message of the rejection is shown, nothing is read. *)
Definition network_failure_contract `{E : Engine} (V : Variant) : Prop :=
  forall (url : string) (backend : string -> RequestInit -> Settled Response)
         (st : St V) (e : jsval),
    backend endpoint (clone_request url) = Rejected e ->
    exists st' log,
      run (v_apply V) backend (v_handleSubmit V E url) st = (st', log, None)
      /\ v_error V st'
         = Some (if instanceof_Error e then message_of e else "An error occurred")
      /\ v_result V st' = JNull
      /\ v_loading V st' = false
      /\ bodies_read log = [].

(** A 2xx response whose body is a JSON object: Result is the object's
    [cloned_html] property, whatever else the object holds. *)
Definition object_body_contract `{E : Engine} (V : Variant) : Prop :=
  forall (url : string) (backend : string -> RequestInit -> Settled Response)
         (st : St V) (r : Response) (props : list (string * jsval)),
    backend endpoint (clone_request url) = Fulfilled r ->
    ok r = true ->
    json r = Fulfilled (JObj props) ->
    exists st' log,
      run (v_apply V) backend (v_handleSubmit V E url) st = (st', log, None)
      /\ v_result V st' = assoc "cloned_html" props
      /\ v_error V st' = None
      /\ v_loading V st' = false
      /\ bodies_read log = [r].

(** A handler that ends after at most [n] more answers of the network. *)
Fixpoint ends_within (n : nat) (p : prog unit) : Prop :=
  match p with
  | Ret _ | Throw _ => True
  | Act _ k => ends_within n k
  | AwaitFetch _ _ k =>
      match n with
      | O => False
      | S m => forall o, ends_within m (k o)
      end
  | AwaitJson r k =>
      match n with
      | O => False
      | S m => ends_within m (k (json r))
      end
  end.

Definition parked_within (n : nat) (w : Suspended) : Prop :=
  match w with
  | OnFetch _ _ k => forall o, ends_within n (k o)
  | OnJson r k => ends_within n (k (json r))
  end.

(** The network event that resumes the handler parked first: the request
    settles with [o], or the body has been read. *)
Definition basic_answer (w : Suspended) (o : Settled Response) : Basic.Event :=
  match w with
  | OnFetch _ _ _ => Basic.FetchSettled 0 o
  | OnJson _ _ => Basic.BodyRead 0
  end.

Definition themed_answer (w : Suspended) (o : Settled Response) : Themed.Event :=
  match w with
  | OnFetch _ _ _ => Themed.FetchSettled 0 o
  | OnJson _ _ => Themed.BodyRead 0
  end.

(** Nothing in flight. *)
Definition basic_idle (pg : Basic.Page) : Prop :=
  Basic.loading (Basic.ui pg) = false /\ Basic.pending pg = [].

Definition themed_idle (pg : Themed.Page) : Prop :=
  Themed.loading (Themed.ui pg) = false /\ Themed.pending pg = [].

(** What the network does to a page that has just submitted, when the
    backend answers with [o]: the request settles, and the body of a 2xx
    response is read. *)
Definition basic_answers (o : Settled Response) : list Basic.Event :=
  Basic.FetchSettled 0 o
  :: match o with
     | Fulfilled r => if ok r then [Basic.BodyRead 0] else []
     | Rejected _ => []
     end.

Definition themed_answers (o : Settled Response) : list Themed.Event :=
  Themed.FetchSettled 0 o
  :: match o with
     | Fulfilled r => if ok r then [Themed.BodyRead 0] else []
     | Rejected _ => []
     end.

(** A conditionally rendered element is on the page. *)
Definition present {A} (element : option A) : bool :=
  match element with
  | Some _ => true
  | None => false
  end.

(** How many of the error box, the spinner and the result panel a view
    holds. *)
Definition basic_panels (v : Basic.View) : nat :=
  (if present (Basic.error_box v) then 1 else 0)
  + (if Basic.spinner v then 1 else 0)
  + (if present (Basic.preview_srcDoc v) then 1 else 0).

Definition themed_panels (v : Themed.View) : nat :=
  (if present (Themed.error_box v) then 1 else 0)
  + (if present (Themed.spinner v) then 1 else 0)
  + (if present (Themed.result v) then 1 else 0).

(** A themed view without its styling and without the choice between
    preview and raw text: what is in the input, which controls are
    disabled, what the button says, and which message, spinner and Result
    are on the page. *)
Definition unstyled (v : Themed.View) : Basic.View :=
  {| Basic.input_value := Themed.input_value v;
     Basic.input_disabled := Themed.input_disabled v;
     Basic.submit_disabled := Themed.submit_disabled v;
     Basic.submit_label := Themed.submit_label v;
     Basic.error_box := Themed.error_box v;
     Basic.spinner := present (Themed.spinner v);
     Basic.preview_srcDoc :=
       match Themed.result v with
       | Some shown =>
           Some match Themed.content shown with
                | Themed.RawPre text => text
                | Themed.Iframe srcDoc _ => srcDoc
                end
       | None => None
       end |}.

(** The theme flag, the display mode and the input text after a sequence
    of events the page has accepted. *)
Fixpoint theme_after (dark : bool) (evs : list Themed.Event) : bool :=
  match evs with
  | [] => dark
  | Themed.ThemeClicked :: rest => theme_after (negb dark) rest
  | _ :: rest => theme_after dark rest
  end.

Fixpoint raw_after (raw : bool) (evs : list Themed.Event) : bool :=
  match evs with
  | [] => raw
  | Themed.RawClicked :: rest => raw_after (negb raw) rest
  | _ :: rest => raw_after raw rest
  end.

Fixpoint input_after (text : string) (evs : list Themed.Event) : string :=
  match evs with
  | [] => text
  | Themed.Typed typed :: rest => input_after typed rest
  | _ :: rest => input_after text rest
  end.

(** The clicks on the download button among the events. *)
Fixpoint downloads (evs : list Themed.Event) : nat :=
  match evs with
  | [] => 0
  | Themed.DownloadClicked :: rest => S (downloads rest)
  | _ :: rest => downloads rest
  end.

Definition named_cloned_site (f : SavedFile) : Prop :=
  file_name f = "cloned_site.html" /\ file_type f = "text/html".

(** ** The submit handler, run to its end *)

Section Handler.
Context `{E : Engine}.

Lemma ok_status (r : Response) :
  ok r = false <-> (status r < 200 \/ 299 < status r)%N.
Proof. unfold ok. rewrite andb_false_iff, !N.leb_gt. reflexivity. Qed.

#[local] Opaque ok number_to_string String.app.

(** Evaluate a handler symbolically along every answer of the backend. *)
Ltac run_handler :=
  cbn;
  repeat match goal with
    | |- context [settle (?b ?u ?q)] => destruct (b u q) eqn:?; cbn
    | |- context [if negb (ok ?r) then _ else _] => destruct (ok r) eqn:?; cbn
    | |- context [settle (json ?r)] => destruct (json r) eqn:?; cbn
    | |- context [settle (get_prop ?d ?k)] => destruct (get_prop d k) eqn:?; cbn
    end.

Ltac settled_by_success :=
  eexists _, [ReadBody _; Did (SetClonedHtml _)];
  split; [reflexivity|]; split; [reflexivity|]; split; [reflexivity|];
  left; eexists _, _; split; [econstructor; eassumption|];
  repeat split.

Ltac settled_by_failure read :=
  match goal with
  | |- context [Did (ConsoleError _ ?err)] =>
      eexists _, (read ++ on_failure err);
      split; [reflexivity|]; split; [reflexivity|]; split; [reflexivity|];
      right; exists read, err; split; [econstructor; eassumption|];
      repeat split
  end.

Ltac settle_contract :=
  first [ settled_by_success
        | settled_by_failure (@nil Effect)
        | match goal with r : Response |- _ => settled_by_failure [ReadBody r] end ].

Lemma basic_contract : submit_contract basic.
Proof.
  intros url backend st. unfold opening, endpoint, clone_request. split.
  - eexists _, _. cbn. repeat split.
  - unfold basic, v_handleSubmit, v_apply, Basic.handleSubmit.
    run_handler; settle_contract.
Qed.

Lemma themed_contract : submit_contract themed.
Proof.
  intros url backend st. unfold opening, endpoint, clone_request. split.
  - eexists _, _. cbn. repeat split.
  - unfold themed, v_handleSubmit, v_apply, Themed.handleSubmit.
    run_handler; settle_contract.
Qed.

Lemma assoc_absent (key : string) (props : list (string * jsval)) :
  existsb (fun kv => String.eqb (fst kv) key) props = false ->
  assoc key props = JUndefined.
Proof.
  induction props as [|[k v] props IH]; cbn; [reflexivity|].
  destruct (String.eqb k key); cbn; [discriminate|exact IH].
Qed.

Lemma get_prop_absent (d : jsval) :
  d <> JNull -> d <> JUndefined -> has_cloned_html d = false ->
  get_prop d "cloned_html" = Fulfilled JUndefined.
Proof.
  intros Hnull Hundef Hno. destruct d; cbn in *; try congruence.
  now rewrite assoc_absent.
Qed.

(** The three contracts below follow from [submit_contract] alone, for
    any page that renders its controls disabled exactly while loading. *)
Section FromContract.
Variable V : Variant.
Hypothesis contract : submit_contract V.
Hypothesis input_follows_loading : forall st, v_input_disabled V st = v_loading V st.
Hypothesis submit_follows_loading : forall st, v_submit_disabled V st = v_loading V st.

Lemma contract_http_error : http_error_contract V.
Proof.
  intros url backend st r Hr Hstatus. apply ok_status in Hstatus.
  destruct (contract url backend st) as (_ & st' & settlement & Hrun & _ & Hload & Hcases).
  exists st', (opening url ++ settlement ++ [Did (SetLoading false)]).
  rewrite input_follows_loading, submit_follows_loading.
  rewrite Hr in Hcases.
  destruct Hcases as [(r' & html & Hs & _)|(read & err & Hf & -> & Hres & Herr)].
  - inversion Hs; congruence.
  - inversion Hf; subst; try congruence.
    repeat split; try assumption.
Qed.

Lemma contract_shape : shape_contract V.
Proof.
  intros url backend st r Hr Hok.
  destruct (contract url backend st) as (_ & st' & settlement & Hrun & _ & Hload & Hcases).
  exists st', (opening url ++ settlement ++ [Did (SetLoading false)]).
  split; [exact Hrun|]. split; [exact Hload|].
  rewrite Hr in Hcases.
  destruct Hcases as [(r' & html & Hs & _ & Hres & Herr)|(read & err & Hf & _ & Hres & Herr)].
  - inversion Hs as [r0 d html0 _ Hjson Hget]; subst.
    split; [intros e He; congruence|].
    split.
    + intros Hnull. rewrite Hnull in Hjson. injection Hjson as <-.
      discriminate Hget.
    + intros d' Hd' Hn Hu Hno.
      rewrite Hd' in Hjson. injection Hjson as <-.
      rewrite get_prop_absent in Hget by assumption. injection Hget as <-.
      split; [exact Herr|reflexivity].
  - inversion Hf as [|r0 Hno|r0 e _ Hjson|r0 d e _ Hjson Hget]; subst;
      [congruence|..].
    + split.
      * intros e' He'. rewrite He' in Hjson. injection Hjson as ->.
        split; assumption.
      * split; intros; congruence.
    + split; [intros; congruence|].
      split.
      * intros Hnull. rewrite Hnull in Hjson. injection Hjson as <-.
        cbn in Hget. injection Hget as <-. split; [exact Herr|exact Hres].
      * intros d' Hd' Hn Hu Hno. exfalso.
        rewrite Hd' in Hjson. injection Hjson as <-.
        rewrite get_prop_absent in Hget by assumption. discriminate.
Qed.

Lemma contract_request : request_contract V.
Proof.
  intros url backend st.
  destruct (contract url backend st) as (_ & st' & settlement & Hrun & Hreq & _).
  rewrite Hrun. exact Hreq.
Qed.
End FromContract.

(** C1, as amended. A submission sets loading, clears Error, clears
    Result and issues one request to the clone endpoint, in that order,
    and parks with both fields cleared.  When the request has settled the
    handler has done one of two things and then, last, reset loading.  If
    the status is 2xx, the body is JSON and reading [cloned_html] from it
    does not throw, it has stored that property into Result and left Error
    empty; a JSON body that merely lacks the field is such a success, with
    Result undefined and no message.  Otherwise (the request fails, the
    status is not 2xx, the body is not JSON, or the property read throws)
    it has stored the message of what was thrown into Error and left
    Result null.  Both pages. *)
Theorem submit_side_effects_in_order :
  (submit_contract basic /\ submit_contract themed)
  /\ (forall (r : Response) (d : jsval),
        ok r = true ->
        json r = Fulfilled d ->
        d <> JNull -> d <> JUndefined ->
        has_cloned_html d = false ->
        Success (Fulfilled r) r JUndefined).
Proof.
  split; [split; [apply basic_contract | apply themed_contract]|].
  intros r d Hok Hjson Hnull Hundef Hno.
  apply (cloned r d JUndefined Hok Hjson).
  apply get_prop_absent; assumption.
Qed.


(** C3. A response whose status is outside 200-299 ends the submission
    with Error equal to "HTTP error! status: " followed by the status in
    decimal; the body is never read, Result stays empty, and the input and
    the submit button are enabled again.  Both pages. *)
Theorem non_2xx_status_settles_in_error :
  http_error_contract basic /\ http_error_contract themed.
Proof.
  split.
  - apply contract_http_error; [apply basic_contract|reflexivity|reflexivity].
  - apply contract_http_error; [apply themed_contract|reflexivity|reflexivity].
Qed.

(** C5, as amended. With a 2xx status: a body that is not JSON fails with
    the message of the parser's error; the JSON body null fails with the
    engine's TypeError message; any other JSON body without [cloned_html]
    is not a failure, Result becomes undefined and Error stays empty.
    Both pages. *)
Theorem malformed_body_outcomes :
  shape_contract basic /\ shape_contract themed.
Proof.
  split.
  - apply contract_shape, basic_contract.
  - apply contract_shape, themed_contract.
Qed.

(** C8. Every submission issues exactly one request: a POST to
    http://localhost:8000/clone with the header Content-Type:
    application/json and, as body, the JSON text of the object whose only
    field [target_url] holds the text of the input.  Both pages, for the
    handler run alone and for the form submitted on the page. *)
Theorem request_is_post_of_target_url :
  (request_contract basic /\ request_contract themed)
  /\ (forall pg pg',
        Basic.step Basic.Submitted pg = Some pg' ->
        exists k,
          Basic.pending pg'
          = Basic.pending pg
            ++ [OnFetch "http://localhost:8000/clone"
                  {| method := "POST";
                     headers := [("Content-Type", "application/json")];
                     body := JSON_stringify
                               (JObj [("target_url", JStr (Basic.targetUrl (Basic.ui pg)))]) |}
                  k])
  /\ (forall pg pg',
        Themed.step Themed.Submitted pg = Some pg' ->
        exists k,
          Themed.pending pg'
          = Themed.pending pg
            ++ [OnFetch "http://localhost:8000/clone"
                  {| method := "POST";
                     headers := [("Content-Type", "application/json")];
                     body := JSON_stringify
                               (JObj [("target_url", JStr (Themed.targetUrl (Themed.ui pg)))]) |}
                  k]).
Proof.
  split; [split|split].
  - apply contract_request, basic_contract.
  - apply contract_request, themed_contract.
  - intros pg pg'. cbn.
    destruct (Basic.loading _); [discriminate|].
    destruct (url_input_valid _); [|discriminate].
    cbn. intros [= <-]. cbn. eexists. reflexivity.
  - intros pg pg'. cbn.
    destruct (Themed.loading _); [discriminate|].
    destruct (url_input_valid _); [|discriminate].
    cbn. intros [= <-]. cbn. eexists. reflexivity.
Qed.

End Handler.

(** ** The pages as transition systems *)

Section Resumption.
Context {S : Type} (apply : Action -> S -> S) (I Q : S -> Prop).

(** [wp] is sound for [exec]: a handler started in its precondition
    either parks with [I] and a rest that is again in its precondition
    whenever it is resumed under [I], or ends with [Q]. *)
Lemma exec_wp (p : prog unit) (st : S) :
  wp apply I Q p st ->
  match exec apply p st with
  | (st', _, Waiting w) => I st' /\ parked_ok apply I Q w
  | (st', _, _) => Q st'
  end.
Proof.
  revert st. induction p as [a|e|a k IH|url init k IH|r k IH]; intros st Hwp; cbn in *.
  - exact Hwp.
  - exact Hwp.
  - specialize (IH _ Hwp). destruct (exec apply k (apply a st)) as [[st' log] status].
    exact IH.
  - exact Hwp.
  - exact Hwp.
Qed.
End Resumption.

Section Pages.
Context `{E : Engine}.

#[local] Opaque ok number_to_string String.app.

Ltac wp_handler :=
  unfold quiet, settled; cbn;
  repeat match goal with
    | |- _ /\ _ => split
    | |- forall _, _ => intro
    | |- context [settle ?o] => destruct o; cbn
    | |- context [if negb (ok ?r) then _ else _] => destruct (ok r); cbn
    | H : _ /\ _ |- _ => destruct H
    end;
  cbn in *; auto.

Lemma basic_handleSubmit_wp (url : string) (st : Basic.State) :
  wp Basic.apply (quiet basic) (settled basic) (Basic.handleSubmit url) st.
Proof. wp_handler. Qed.

Lemma themed_handleSubmit_wp (url : string) (st : Themed.State) :
  wp Themed.apply (quiet themed) (settled themed) (Themed.handleSubmit url) st.
Proof. wp_handler. Qed.

(** The two files have the same handler, word for word. *)
Lemma handleSubmit_same (url : string) :
  Basic.handleSubmit url = Themed.handleSubmit url.
Proof. reflexivity. Qed.

#[local] Opaque Basic.handleSubmit Themed.handleSubmit.

(** Resuming the one parked handler keeps the invariant. *)
Lemma basic_resume_inv (p : prog unit) (pg : Basic.Page) (w : Suspended) :
  Basic.pending pg = [w] ->
  wp Basic.apply (quiet basic) (settled basic) p (Basic.ui pg) ->
  page_inv basic (Basic.ui (Basic.resume 0 p pg)) (Basic.pending (Basic.resume 0 p pg)).
Proof.
  intros Hpending Hwp. apply exec_wp in Hwp. unfold Basic.resume.
  destruct (exec Basic.apply p (Basic.ui pg)) as [[st' log] [|e|w']];
    rewrite Hpending; cbn; exact Hwp.
Qed.

Lemma basic_step_inv (ev : Basic.Event) (pg pg' : Basic.Page) :
  page_inv basic (Basic.ui pg) (Basic.pending pg) ->
  Basic.step ev pg = Some pg' ->
  page_inv basic (Basic.ui pg') (Basic.pending pg').
Proof.
  intros Hinv Hstep. unfold page_inv in Hinv.
  destruct (Basic.pending pg) as [|w [|w' rest]] eqn:Hpending; [| |contradiction].
  - (* nothing parked *)
    destruct ev as [text| |i outcome|i]; cbn in Hstep; rewrite ?Hpending in Hstep.
    + destruct (Basic.loading (Basic.ui pg)); [discriminate|].
      injection Hstep as <-. exact Hinv.
    + destruct (Basic.loading (Basic.ui pg)); [discriminate|].
      destruct (url_input_valid _); [|discriminate].
      pose proof (exec_wp _ _ _ _ _
                    (basic_handleSubmit_wp (Basic.targetUrl (Basic.ui pg)) (Basic.ui pg)))
        as Hexec.
      cbn in Hstep.
      destruct (exec Basic.apply _ (Basic.ui pg)) as [[st' log] [|e|w]];
        injection Hstep as <-; exact Hexec.
    + discriminate.
    + discriminate.
  - (* one handler parked *)
    destruct Hinv as [Hquiet Hparked].
    destruct ev as [text| |i outcome|i]; cbn in Hstep; rewrite ?Hpending in Hstep.
    + destruct Hquiet as [Hloading _]. cbn in Hloading.
      rewrite Hloading in Hstep. discriminate.
    + destruct Hquiet as [Hloading _]. cbn in Hloading.
      rewrite Hloading in Hstep. discriminate.
    + destruct i as [|i]; [|discriminate]. cbn in Hstep.
      destruct w as [url init k|r k]; [|discriminate].
      injection Hstep as <-.
      apply basic_resume_inv with (w := OnFetch url init k); [exact Hpending|].
      apply Hparked, Hquiet.
    + destruct i as [|i]; [|discriminate]. cbn in Hstep.
      destruct w as [url init k|r k]; [discriminate|].
      injection Hstep as <-.
      apply basic_resume_inv with (w := OnJson r k); [exact Hpending|].
      apply Hparked, Hquiet.
Qed.

Lemma themed_resume_inv (p : prog unit) (pg : Themed.Page) (w : Suspended) :
  Themed.pending pg = [w] ->
  wp Themed.apply (quiet themed) (settled themed) p (Themed.ui pg) ->
  page_inv themed (Themed.ui (Themed.resume 0 p pg)) (Themed.pending (Themed.resume 0 p pg)).
Proof.
  intros Hpending Hwp. apply exec_wp in Hwp. unfold Themed.resume.
  destruct (exec Themed.apply p (Themed.ui pg)) as [[st' log] [|e|w']];
    rewrite Hpending; cbn; exact Hwp.
Qed.

Lemma themed_step_inv (ev : Themed.Event) (pg pg' : Themed.Page) :
  page_inv themed (Themed.ui pg) (Themed.pending pg) ->
  Themed.step ev pg = Some pg' ->
  page_inv themed (Themed.ui pg') (Themed.pending pg').
Proof.
  intros Hinv Hstep. unfold page_inv in Hinv.
  destruct (Themed.pending pg) as [|w [|w' rest]] eqn:Hpending; [| |contradiction].
  - (* nothing parked *)
    destruct ev as [text| |i outcome|i| | |]; cbn in Hstep; rewrite ?Hpending in Hstep.
    + destruct (Themed.loading (Themed.ui pg)); [discriminate|].
      injection Hstep as <-. exact Hinv.
    + destruct (Themed.loading (Themed.ui pg)); [discriminate|].
      destruct (url_input_valid _); [|discriminate].
      pose proof (exec_wp _ _ _ _ _
                    (themed_handleSubmit_wp (Themed.targetUrl (Themed.ui pg)) (Themed.ui pg)))
        as Hexec.
      cbn in Hstep.
      destruct (exec Themed.apply _ (Themed.ui pg)) as [[st' log] [|e|w]];
        injection Hstep as <-; exact Hexec.
    + discriminate.
    + discriminate.
    + injection Hstep as <-. exact Hinv.
    + destruct (truthy _); [|discriminate]. injection Hstep as <-. exact Hinv.
    + destruct (truthy _); [|discriminate]. injection Hstep as <-. exact Hinv.
  - (* one handler parked *)
    destruct Hinv as [Hquiet Hparked].
    destruct ev as [text| |i outcome|i| | |]; cbn in Hstep; rewrite ?Hpending in Hstep.
    + destruct Hquiet as [Hloading _]. cbn in Hloading.
      rewrite Hloading in Hstep. discriminate.
    + destruct Hquiet as [Hloading _]. cbn in Hloading.
      rewrite Hloading in Hstep. discriminate.
    + destruct i as [|i]; [|discriminate]. cbn in Hstep.
      destruct w as [url init k|r k]; [|discriminate].
      injection Hstep as <-.
      apply themed_resume_inv with (w := OnFetch url init k); [exact Hpending|].
      apply Hparked, Hquiet.
    + destruct i as [|i]; [|discriminate]. cbn in Hstep.
      destruct w as [url init k|r k]; [discriminate|].
      injection Hstep as <-.
      apply themed_resume_inv with (w := OnJson r k); [exact Hpending|].
      apply Hparked, Hquiet.
    + injection Hstep as <-. exact (conj Hquiet Hparked).
    + destruct (truthy _); [|discriminate]. injection Hstep as <-.
      exact (conj Hquiet Hparked).
    + destruct (truthy _); [|discriminate]. injection Hstep as <-.
      exact (conj Hquiet Hparked).
Qed.

Lemma basic_steps_inv (evs : list Basic.Event) (pg pg' : Basic.Page) :
  page_inv basic (Basic.ui pg) (Basic.pending pg) ->
  Basic.steps evs pg = Some pg' ->
  page_inv basic (Basic.ui pg') (Basic.pending pg').
Proof.
  revert pg. induction evs as [|ev evs IH]; intros pg Hinv Hsteps; cbn in Hsteps.
  - injection Hsteps as <-. exact Hinv.
  - destruct (Basic.step ev pg) as [pg1|] eqn:Hstep; [|discriminate].
    cbn in Hsteps. eapply IH; [|exact Hsteps].
    eapply basic_step_inv; eassumption.
Qed.

Lemma themed_steps_inv (evs : list Themed.Event) (pg pg' : Themed.Page) :
  page_inv themed (Themed.ui pg) (Themed.pending pg) ->
  Themed.steps evs pg = Some pg' ->
  page_inv themed (Themed.ui pg') (Themed.pending pg').
Proof.
  revert pg. induction evs as [|ev evs IH]; intros pg Hinv Hsteps; cbn in Hsteps.
  - injection Hsteps as <-. exact Hinv.
  - destruct (Themed.step ev pg) as [pg1|] eqn:Hstep; [|discriminate].
    cbn in Hsteps. eapply IH; [|exact Hsteps].
    eapply themed_step_inv; eassumption.
Qed.

Lemma basic_mounted_inv : page_inv basic (Basic.ui Basic.mounted) (Basic.pending Basic.mounted).
Proof. cbn. split; [reflexivity|left; reflexivity]. Qed.

Lemma themed_mounted_inv : page_inv themed (Themed.ui Themed.mounted) (Themed.pending Themed.mounted).
Proof. cbn. split; [reflexivity|left; reflexivity]. Qed.

Lemma page_inv_exclusive (V : Variant) (st : St V) (parked : list Suspended) :
  page_inv V st parked -> v_error V st = None \/ v_result V st = JNull.
Proof.
  destruct parked as [|w [|w' rest]]; cbn.
  - intros [_ Hexcl]. exact Hexcl.
  - intros [(_ & Herr & _) _]. left. exact Herr.
  - contradiction.
Qed.

(** C2. Whatever the user and the network do to a freshly mounted page,
    Error and Result are never both set: one of them is null.  Both
    pages. *)
Theorem result_and_error_exclusive :
  (forall (evs : list Basic.Event) (pg : Basic.Page),
      Basic.steps evs Basic.mounted = Some pg ->
      Basic.error (Basic.ui pg) = None \/ Basic.clonedHtml (Basic.ui pg) = JNull)
  /\ (forall (evs : list Themed.Event) (pg : Themed.Page),
      Themed.steps evs Themed.mounted = Some pg ->
      Themed.error (Themed.ui pg) = None \/ Themed.clonedHtml (Themed.ui pg) = JNull).
Proof.
  split; intros evs pg Hsteps.
  - apply (page_inv_exclusive basic _ (Basic.pending pg)).
    eapply basic_steps_inv; [apply basic_mounted_inv|exact Hsteps].
  - apply (page_inv_exclusive themed _ (Themed.pending pg)).
    eapply themed_steps_inv; [apply themed_mounted_inv|exact Hsteps].
Qed.

Lemma page_inv_single_flight (V : Variant) (st : St V) (parked : list Suspended) :
  page_inv V st parked ->
  (length parked <= 1)%nat /\ (parked <> [] <-> v_loading V st = true).
Proof.
  destruct parked as [|w [|w' rest]]; cbn.
  - intros [Hloading _]. split; [lia|]. rewrite Hloading. split; [congruence|discriminate].
  - intros [(Hloading & _) _]. split; [lia|]. rewrite Hloading. split; [reflexivity|discriminate].
  - contradiction.
Qed.

(** C4. On every page reached from a freshly mounted one, at most one
    handler is parked on a request, and one is parked exactly while
    loading is true; while loading is true the input and the submit button
    are rendered disabled, so the page takes neither a submission nor
    typing.  Both pages. *)
Theorem single_flight :
  (forall (evs : list Basic.Event) (pg : Basic.Page),
      Basic.steps evs Basic.mounted = Some pg ->
      (length (Basic.pending pg) <= 1)%nat
      /\ (Basic.pending pg <> [] <-> Basic.loading (Basic.ui pg) = true)
      /\ (Basic.loading (Basic.ui pg) = true ->
          Basic.input_disabled (Basic.Home (Basic.ui pg)) = true
          /\ Basic.submit_disabled (Basic.Home (Basic.ui pg)) = true
          /\ Basic.step Basic.Submitted pg = None
          /\ forall text, Basic.step (Basic.Typed text) pg = None))
  /\ (forall (evs : list Themed.Event) (pg : Themed.Page),
      Themed.steps evs Themed.mounted = Some pg ->
      (length (Themed.pending pg) <= 1)%nat
      /\ (Themed.pending pg <> [] <-> Themed.loading (Themed.ui pg) = true)
      /\ (Themed.loading (Themed.ui pg) = true ->
          Themed.input_disabled (Themed.Home (Themed.ui pg)) = true
          /\ Themed.submit_disabled (Themed.Home (Themed.ui pg)) = true
          /\ Themed.step Themed.Submitted pg = None
          /\ forall text, Themed.step (Themed.Typed text) pg = None)).
Proof.
  split; intros evs pg Hsteps.
  - destruct (page_inv_single_flight basic (Basic.ui pg) (Basic.pending pg)) as [Hlen Hiff].
    { eapply basic_steps_inv; [apply basic_mounted_inv|exact Hsteps]. }
    split; [exact Hlen|]. split; [exact Hiff|].
    intros Hloading. cbn. rewrite Hloading. repeat split.
  - destruct (page_inv_single_flight themed (Themed.ui pg) (Themed.pending pg)) as [Hlen Hiff].
    { eapply themed_steps_inv; [apply themed_mounted_inv|exact Hsteps]. }
    split; [exact Hlen|]. split; [exact Hiff|].
    intros Hloading. cbn. rewrite Hloading. repeat split.
Qed.

(** *** The theme flag *)

Lemma apply_setIsDarkMode (d : bool) (a : Action) (st : Themed.State) :
  Themed.apply a (Themed.setIsDarkMode d st) = Themed.setIsDarkMode d (Themed.apply a st).
Proof. destruct a; reflexivity. Qed.

Lemma exec_setIsDarkMode (d : bool) (p : prog unit) (st : Themed.State) :
  exec Themed.apply p (Themed.setIsDarkMode d st)
  = let '(st', log, status) := exec Themed.apply p st in
    (Themed.setIsDarkMode d st', log, status).
Proof.
  revert st. induction p as [a|e|a k IH|url init k IH|r k IH]; intros st; cbn;
    try reflexivity.
  rewrite apply_setIsDarkMode, IH.
  destruct (exec Themed.apply k (Themed.apply a st)) as [[st' log] status].
  reflexivity.
Qed.

Lemma run_setIsDarkMode (d : bool) backend (p : prog unit) (st : Themed.State) :
  run Themed.apply backend p (Themed.setIsDarkMode d st)
  = let '(st', log, exn) := run Themed.apply backend p st in
    (Themed.setIsDarkMode d st', log, exn).
Proof.
  revert st. induction p as [a|e|a k IH|url init k IH|r k IH]; intros st; cbn;
    try reflexivity.
  - rewrite apply_setIsDarkMode, IH.
    destruct (run Themed.apply backend k (Themed.apply a st)) as [[st' log] exn].
    reflexivity.
  - rewrite IH.
    destruct (run Themed.apply backend (k (backend url init)) st) as [[st' log] exn].
    reflexivity.
  - rewrite IH.
    destruct (run Themed.apply backend (k (json r)) st) as [[st' log] exn].
    reflexivity.
Qed.

Lemma run_keeps_isDarkMode backend (p : prog unit) (st : Themed.State) :
  Themed.isDarkMode (run Themed.apply backend p st).1.1 = Themed.isDarkMode st.
Proof.
  revert st. induction p as [a|e|a k IH|url init k IH|r k IH]; intros st; cbn;
    try reflexivity.
  - specialize (IH (Themed.apply a st)).
    destruct (run Themed.apply backend k (Themed.apply a st)) as [[st' log] exn].
    cbn in *. rewrite IH. destruct a; reflexivity.
  - specialize (IH (backend url init) st).
    destruct (run Themed.apply backend (k (backend url init)) st) as [[st' log] exn].
    exact IH.
  - specialize (IH (json r) st).
    destruct (run Themed.apply backend (k (json r)) st) as [[st' log] exn].
    exact IH.
Qed.

Lemma exec_keeps_isDarkMode (p : prog unit) (st : Themed.State) :
  Themed.isDarkMode (exec Themed.apply p st).1.1 = Themed.isDarkMode st.
Proof.
  revert st. induction p as [a|e|a k IH|url init k IH|r k IH]; intros st; cbn;
    try reflexivity.
  specialize (IH (Themed.apply a st)).
  destruct (exec Themed.apply k (Themed.apply a st)) as [[st' log] status].
  cbn in *. rewrite IH. destruct a; reflexivity.
Qed.

(** Clicking the theme button before or after the handler has run to its
    next [await] leaves the same page. *)
Lemma exec_then_toggle (p : prog unit) (st : Themed.State) :
  exec Themed.apply p (Themed.toggleDarkMode st)
  = let '(st', log, status) := exec Themed.apply p st in
    (Themed.toggleDarkMode st', log, status).
Proof.
  unfold Themed.toggleDarkMode at 1. rewrite exec_setIsDarkMode.
  pose proof (exec_keeps_isDarkMode p st) as Hkeep.
  destruct (exec Themed.apply p st) as [[st' log] status]. cbn in Hkeep.
  unfold Themed.toggleDarkMode. rewrite Hkeep. reflexivity.
Qed.

(** C7. The theme flag is cosmetic.  Two runs of the submit handler from
    states that differ only in the flag perform the same effects, the
    request among them, and end with the same loading, Result and Error,
    each with its own flag untouched.  On the page, a click on the theme
    button flips the flag and nothing else, parked handlers included, and
    it commutes with every other event, so a click during a request does
    not change how the request settles. *)
Theorem theme_is_cosmetic :
  (forall (url : string) (backend : string -> RequestInit -> Settled Response)
          (st : Themed.State) (d : bool),
      let '(st1, log1, exn1) :=
        run Themed.apply backend (Themed.handleSubmit url) st in
      let '(st2, log2, exn2) :=
        run Themed.apply backend (Themed.handleSubmit url) (Themed.setIsDarkMode d st) in
      log1 = log2 /\ exn1 = exn2
      /\ Themed.loading st1 = Themed.loading st2
      /\ Themed.clonedHtml st1 = Themed.clonedHtml st2
      /\ Themed.error st1 = Themed.error st2
      /\ Themed.isDarkMode st1 = Themed.isDarkMode st
      /\ Themed.isDarkMode st2 = d)
  /\ (forall pg : Themed.Page,
        exists pg',
          Themed.step Themed.ThemeClicked pg = Some pg'
          /\ Themed.isDarkMode (Themed.ui pg') = negb (Themed.isDarkMode (Themed.ui pg))
          /\ Themed.pending pg' = Themed.pending pg
          /\ Themed.loading (Themed.ui pg') = Themed.loading (Themed.ui pg)
          /\ Themed.clonedHtml (Themed.ui pg') = Themed.clonedHtml (Themed.ui pg)
          /\ Themed.error (Themed.ui pg') = Themed.error (Themed.ui pg)
          /\ Themed.targetUrl (Themed.ui pg') = Themed.targetUrl (Themed.ui pg))
  /\ (forall (ev : Themed.Event) (pg : Themed.Page),
        Themed.step Themed.ThemeClicked pg ≫= Themed.step ev
        = Themed.step ev pg ≫= Themed.step Themed.ThemeClicked).
Proof.
  split; [|split].
  - intros url backend st d.
    pose proof (run_setIsDarkMode d backend (Themed.handleSubmit url) st) as Hrun.
    pose proof (run_keeps_isDarkMode backend (Themed.handleSubmit url) st) as Hkeep.
    destruct (run Themed.apply backend (Themed.handleSubmit url) st) as [[st1 log1] exn1].
    rewrite Hrun. cbn in Hkeep. repeat split. exact Hkeep.
  - intros pg. eexists. split; [reflexivity|]. repeat split.
  - intros ev pg.
    destruct ev as [text| |i outcome|i| | |]; cbn.
    + destruct (Themed.loading (Themed.ui pg)); reflexivity.
    + destruct (Themed.loading (Themed.ui pg)); [reflexivity|].
      destruct (url_input_valid _); [|reflexivity]. cbn.
      rewrite exec_then_toggle.
      destruct (exec Themed.apply _ (Themed.ui pg)) as [[st' log] status].
      reflexivity.
    + destruct (Themed.pending pg !! i) as [[url init k|r k]|]; try reflexivity.
      cbn. unfold Themed.resume. cbn. rewrite exec_then_toggle.
      destruct (exec Themed.apply _ (Themed.ui pg)) as [[st' log] status].
      reflexivity.
    + destruct (Themed.pending pg !! i) as [[url init k|r k]|]; try reflexivity.
      cbn. unfold Themed.resume. cbn. rewrite exec_then_toggle.
      destruct (exec Themed.apply _ (Themed.ui pg)) as [[st' log] status].
      reflexivity.
    + reflexivity.
    + destruct (truthy _); reflexivity.
    + destruct (truthy _); reflexivity.
Qed.

(** *** The two toggles *)

(** C9. Clicking the raw-HTML button twice, or the theme button twice,
    restores the state, and with it everything the page renders: each
    click negates its flag, and two clicks are the identity. *)
Theorem toggles_are_involutions :
  (forall st : Themed.State,
      Themed.showRawHtml (Themed.toggleRawHtml st) = negb (Themed.showRawHtml st)
      /\ Themed.toggleRawHtml (Themed.toggleRawHtml st) = st
      /\ Themed.Home (Themed.toggleRawHtml (Themed.toggleRawHtml st)) = Themed.Home st)
  /\ (forall st : Themed.State,
      Themed.isDarkMode (Themed.toggleDarkMode st) = negb (Themed.isDarkMode st)
      /\ Themed.toggleDarkMode (Themed.toggleDarkMode st) = st
      /\ Themed.Home (Themed.toggleDarkMode (Themed.toggleDarkMode st)) = Themed.Home st)
  /\ (forall pg : Themed.Page,
      Themed.step Themed.ThemeClicked pg ≫= Themed.step Themed.ThemeClicked = Some pg)
  /\ (forall pg : Themed.Page,
      truthy (Themed.clonedHtml (Themed.ui pg)) = true ->
      Themed.step Themed.RawClicked pg ≫= Themed.step Themed.RawClicked = Some pg).
Proof.
  assert (Hraw : forall st, Themed.toggleRawHtml (Themed.toggleRawHtml st) = st).
  { intros [url l h e raw dark]. unfold Themed.toggleRawHtml. cbn.
    rewrite negb_involutive. reflexivity. }
  assert (Hdark : forall st, Themed.toggleDarkMode (Themed.toggleDarkMode st) = st).
  { intros [url l h e raw dark]. unfold Themed.toggleDarkMode. cbn.
    rewrite negb_involutive. reflexivity. }
  split; [|split; [|split]].
  - intros st. split; [reflexivity|]. split; [apply Hraw|]. rewrite Hraw. reflexivity.
  - intros st. split; [reflexivity|]. split; [apply Hdark|]. rewrite Hdark. reflexivity.
  - intros [st parked b]. cbn. fold (Themed.toggleDarkMode st).
    fold (Themed.toggleDarkMode (Themed.toggleDarkMode st)). rewrite Hdark. reflexivity.
  - intros [st parked b] Hshown. cbn in *. rewrite Hshown. cbn. rewrite Hshown.
    fold (Themed.toggleRawHtml st).
    fold (Themed.toggleRawHtml (Themed.toggleRawHtml st)). rewrite Hraw. reflexivity.
Qed.

(** *** Download *)

(** C6. For a non-empty Result string the download button is there, and
    a click saves one file, named cloned_site.html, of type text/html,
    whose bytes are the encoding of the Result string as it is; the object
    URL made for it is revoked by the time the handler returns, after the
    save has started, and the link is taken out of the document again. *)
Theorem download_saves_result_as_is :
  (forall (html : string) (b : Browser),
      let b' := Themed.downloadHtml (JStr html) b in
      saved b' = saved b ++ [cloned_site html]
      /\ object_urls b' = delete (next_url b) (object_urls b)
      /\ object_urls b' !! next_url b = None
      /\ body_children b'
         = List.filter (fun c => negb (Nat.eqb (node c) (next_node b))) (body_children b))
  /\ (forall (pg : Themed.Page) (html : string),
        Themed.clonedHtml (Themed.ui pg) = JStr html ->
        html <> "" ->
        Themed.step Themed.DownloadClicked pg
        = Some {| Themed.ui := Themed.ui pg;
                  Themed.pending := Themed.pending pg;
                  Themed.browser := Themed.downloadHtml (JStr html) (Themed.browser pg) |}).
Proof.
  split.
  - intros html b. unfold Themed.downloadHtml, click. cbn.
    rewrite lookup_insert_eq. cbn.
    split; [reflexivity|]. split; [apply delete_insert_eq|].
    split; [rewrite delete_insert_eq; apply lookup_delete_eq|].
    rewrite List.filter_app. cbn. rewrite Nat.eqb_refl. cbn.
    apply app_nil_r.
  - intros pg html Hresult Hnonempty. cbn. rewrite Hresult. cbn.
    destruct (String.eqb_spec html ""); [contradiction|reflexivity].
Qed.

(** *** The two pages *)

Lemma apply_forget (a : Action) (st : Themed.State) :
  Basic.apply a (forget st) = forget (Themed.apply a st).
Proof. destruct a; reflexivity. Qed.

Lemma exec_forget (p : prog unit) (st : Themed.State) :
  exec Basic.apply p (forget st)
  = let '(st', log, status) := exec Themed.apply p st in (forget st', log, status).
Proof.
  revert st. induction p as [a|e|a k IH|url init k IH|r k IH]; intros st; cbn;
    try reflexivity.
  rewrite apply_forget, IH.
  destruct (exec Themed.apply k (Themed.apply a st)) as [[st' log] status].
  reflexivity.
Qed.

Lemma step_agree (ev : Basic.Event) (b : Basic.Page) (t : Themed.Page) :
  agree b t -> agree_opt (Basic.step ev b) (Themed.step (themed_event ev) t).
Proof.
  destruct b as [sb pb], t as [st pt bt]. intros [Hui Hpending]. cbn in Hui, Hpending.
  subst sb pb.
  destruct ev as [text| |i outcome|i]; cbn.
  - destruct (Themed.loading st); cbn; [exact I|]. split; reflexivity.
  - destruct (Themed.loading st); cbn; [exact I|].
    destruct (url_input_valid _); cbn; [|exact I].
    rewrite handleSubmit_same, exec_forget.
    destruct (exec Themed.apply _ st) as [[st' log] status]. cbn.
    split; reflexivity.
  - destruct (pt !! i) as [[url init k|r k]|]; cbn; try exact I.
    unfold Basic.resume, Themed.resume. cbn. rewrite exec_forget.
    destruct (exec Themed.apply _ st) as [[st' log] status]. cbn.
    split; reflexivity.
  - destruct (pt !! i) as [[url init k|r k]|]; cbn; try exact I.
    unfold Basic.resume, Themed.resume. cbn. rewrite exec_forget.
    destruct (exec Themed.apply _ st) as [[st' log] status]. cbn.
    split; reflexivity.
Qed.

Lemma steps_agree (evs : list Basic.Event) (b : Basic.Page) (t : Themed.Page) :
  agree b t ->
  agree_opt (Basic.steps evs b) (Themed.steps (map themed_event evs) t).
Proof.
  revert b t. induction evs as [|ev evs IH]; intros b t Hagree; cbn.
  - exact Hagree.
  - pose proof (step_agree ev b t Hagree) as Hstep.
    destruct (Basic.step ev b) as [b1|], (Themed.step (themed_event ev) t) as [t1|];
      cbn in *; try contradiction; [|exact I].
    apply IH, Hstep.
Qed.

(** C10. The two pages run the same submit state machine.  For every URL
    and backend, whatever the states they start in, the two handlers
    perform the same effects, so the same request, and end with the same
    loading, Result and Error.  And the pages themselves stay in step:
    from the mounted pages, every sequence of typing, submitting and
    settling is allowed by both or by neither, and leaves them with equal
    input, loading, Result and Error and the same handlers parked. *)
Theorem pages_run_the_same_machine :
  (forall (url : string) (backend : string -> RequestInit -> Settled Response)
          (sb : Basic.State) (st : Themed.State),
      let '(sb', logb, exnb) := run Basic.apply backend (Basic.handleSubmit url) sb in
      let '(st', logt, exnt) := run Themed.apply backend (Themed.handleSubmit url) st in
      logb = logt /\ requests logb = requests logt /\ exnb = exnt
      /\ Basic.loading sb' = Themed.loading st'
      /\ Basic.clonedHtml sb' = Themed.clonedHtml st'
      /\ Basic.error sb' = Themed.error st')
  /\ (forall evs : list Basic.Event,
        agree_opt (Basic.steps evs Basic.mounted)
                  (Themed.steps (map themed_event evs) Themed.mounted)).
Proof.
  split.
  - intros url backend sb st.
    destruct (basic_contract url backend sb)
      as (_ & sb' & settlement & Hrunb & _ & Hloadb & Hb).
    destruct (themed_contract url backend st)
      as (_ & st' & settlement' & Hrunt & _ & Hloadt & Ht).
    cbn in *. rewrite Hrunb, Hrunt. cbn in *.
    assert (settlement = settlement'
            /\ Basic.clonedHtml sb' = Themed.clonedHtml st'
            /\ Basic.error sb' = Themed.error st') as (<- & Hres & Herr).
    { destruct Hb as [(rb & hb & Hsb & -> & Hrb & Heb)|(readb & eb & Hfb & -> & Hrb & Heb)];
      destruct Ht as [(rt & ht & Hst & -> & Hrt & Het)|(readt & et & Hft & -> & Hrt & Het)].
      - inversion Hsb; inversion Hst; subst.
        repeat split; congruence.
      - inversion Hsb; inversion Hft; subst; congruence.
      - inversion Hfb; inversion Hst; subst; congruence.
      - inversion Hfb; inversion Hft; subst; try congruence.
        all: repeat split; congruence. }
    repeat split; congruence.
  - intros evs. apply steps_agree. split; reflexivity.
Qed.

End Pages.

(** ** The theorems at concrete inputs *)

Lemma result_and_error_exclusive_witness :
  exists pg,
    @Basic.steps reference_engine two_submissions Basic.mounted = Some pg
    /\ (Basic.error (Basic.ui pg) = None \/ Basic.clonedHtml (Basic.ui pg) = JNull).
Proof.
  eexists. split.
  - vm_compute. reflexivity.
  - apply (proj1 (@result_and_error_exclusive reference_engine) two_submissions).
    vm_compute. reflexivity.
Defined.

Lemma non_2xx_status_settles_in_error_witness :
  exists st' log,
    run Basic.apply (always (Fulfilled server_error))
        (@Basic.handleSubmit reference_engine example_url) Basic.initial
    = (st', log, None)
    /\ Basic.error st' = Some "HTTP error! status: 500"
    /\ Basic.clonedHtml st' = JNull
    /\ Basic.loading st' = false
    /\ Basic.input_disabled (Basic.Home st') = false
    /\ Basic.submit_disabled (Basic.Home st') = false
    /\ bodies_read log = [].
Proof.
  apply (proj1 (@non_2xx_status_settles_in_error reference_engine)
           example_url (always (Fulfilled server_error)) Basic.initial server_error).
  - reflexivity.
  - right. reflexivity.
Defined.

Lemma single_flight_witness :
  exists pg,
    @Basic.steps reference_engine in_flight Basic.mounted = Some pg
    /\ length (Basic.pending pg) = 1%nat
    /\ Basic.loading (Basic.ui pg) = true
    /\ @Basic.step reference_engine Basic.Submitted pg = None.
Proof.
  eexists. split; [reflexivity|].
  destruct (proj1 (@single_flight reference_engine) in_flight _ eq_refl)
    as (_ & _ & Hdisabled).
  split; [reflexivity|]. split; [reflexivity|].
  apply Hdisabled. reflexivity.
Defined.

Lemma malformed_body_outcomes_witness :
  exists st' log,
    run Basic.apply (always (Fulfilled no_field))
        (@Basic.handleSubmit reference_engine example_url) Basic.initial
    = (st', log, None)
    /\ Basic.error st' = None
    /\ Basic.clonedHtml st' = JUndefined.
Proof.
  destruct (proj1 (@malformed_body_outcomes reference_engine)
              example_url (always (Fulfilled no_field)) Basic.initial no_field
              eq_refl eq_refl)
    as (st' & log & Hrun & _ & _ & _ & Hmissing).
  exists st', log. split; [exact Hrun|].
  apply (Hmissing (JObj [("title", JStr "Hi")])).
  - reflexivity.
  - discriminate.
  - discriminate.
  - reflexivity.
Defined.

(** C5, as the specification states it, fails: a 200 response whose JSON
    body is an object without [cloned_html] ends with Error still empty
    and Result undefined. *)
Lemma missing_field_stores_no_error :
  ok no_field = true
  /\ json no_field = Fulfilled (JObj [("title", JStr "Hi")])
  /\ has_cloned_html (JObj [("title", JStr "Hi")]) = false
  /\ (run Basic.apply (always (Fulfilled no_field))
          (@Basic.handleSubmit reference_engine example_url) Basic.initial).1.1
     = {| Basic.targetUrl := ""; Basic.loading := false;
          Basic.clonedHtml := JUndefined; Basic.error := None |}
  /\ ~ @shape_failure_claim reference_engine basic.
Proof.
  repeat split.
  intros Hclaim.
  destruct (Hclaim example_url (always (Fulfilled no_field)) Basic.initial no_field)
    as (st' & log & msg & Hrun & Herr).
  - reflexivity.
  - reflexivity.
  - right. exists (JObj [("title", JStr "Hi")]). split; reflexivity.
  - vm_compute in Hrun. injection Hrun as <- _. discriminate Herr.
Qed.

Lemma download_saves_result_as_is_witness :
  @Themed.step reference_engine Themed.DownloadClicked showing_result
  = Some {| Themed.ui := Themed.ui showing_result;
            Themed.pending := [];
            Themed.browser :=
              @Themed.downloadHtml reference_engine (JStr markup) fresh |}
  /\ saved (@Themed.downloadHtml reference_engine (JStr markup) fresh)
     = [{| file_name := "cloned_site.html"; file_type := "text/html";
           file_bytes := list_byte_of_string markup |}].
Proof.
  split.
  - apply (proj2 (@download_saves_result_as_is reference_engine) showing_result markup).
    + reflexivity.
    + discriminate.
  - apply (proj1 (@download_saves_result_as_is reference_engine) markup fresh).
Defined.

Lemma request_is_post_of_target_url_witness :
  exists pg' k,
    @Basic.step reference_engine Basic.Submitted filled_in = Some pg'
    /\ Basic.pending pg'
       = [OnFetch "http://localhost:8000/clone"
            {| method := "POST";
               headers := [("Content-Type", "application/json")];
               body := stringify (JObj [("target_url", JStr "https://example.com")]) |}
            k].
Proof.
  eexists.
  destruct (proj1 (proj2 (@request_is_post_of_target_url reference_engine))
              filled_in _ eq_refl) as [k Hk].
  exists k. split; [reflexivity|exact Hk].
Defined.

Lemma toggles_are_involutions_witness :
  @Themed.step reference_engine Themed.RawClicked showing_result
    ≫= @Themed.step reference_engine Themed.RawClicked
  = Some showing_result.
Proof.
  apply (proj2 (proj2 (proj2 (@toggles_are_involutions reference_engine)))).
  reflexivity.
Defined.

(** Scenario A: the markup the backend returns is what the page shows,
    in the preview and, after a click, as raw text. *)
Example scenario_A :
  (fun pg => (Themed.ui pg, Themed.result (Themed.Home (Themed.ui pg))))
    <$> @Themed.steps reference_engine
          [Themed.Typed example_url; Themed.Submitted;
           Themed.FetchSettled 0 (Fulfilled hello); Themed.BodyRead 0;
           Themed.RawClicked]
          Themed.mounted
  = Some ({| Themed.targetUrl := example_url; Themed.loading := false;
             Themed.clonedHtml := JStr markup; Themed.error := None;
             Themed.showRawHtml := true; Themed.isDarkMode := false |},
          Some {| Themed.heading_class := "text-xl font-semibold text-gray-900";
                  Themed.raw_button_label := "Hide Raw HTML";
                  Themed.content := Themed.RawPre (JStr markup) |}).
Proof. vm_compute. reflexivity. Qed.

(** A body that is not JSON: the parser's message is shown. *)
Example not_json_shows_parser_message :
  Basic.error
    (run Basic.apply (always (Fulfilled not_json))
       (@Basic.handleSubmit reference_engine example_url) Basic.initial).1.1
  = Some "Unexpected token < in JSON at position 0".
Proof. reflexivity. Qed.

(** Scenario D: while the backend hangs, nothing more can be submitted. *)
Example scenario_D :
  @Basic.steps reference_engine (in_flight ++ [Basic.Submitted]) Basic.mounted = None.
Proof. reflexivity. Qed.

(** ** More about the handler: the outcomes one by one *)

Section Outcomes.
Context `{E : Engine}.

Section OutcomesFromContract.
Variable V : Variant.
Hypothesis contract : submit_contract V.

Lemma contract_network_failure : network_failure_contract V.
Proof.
  intros url backend st e He.
  destruct (contract url backend st)
    as (_ & st' & settlement & Hrun & _ & Hload & Hcases).
  exists st', (opening url ++ settlement ++ [Did (SetLoading false)]).
  rewrite He in Hcases.
  destruct Hcases as [(r & html & Hs & _)|(read & err & Hf & -> & Hres & Herr)].
  - inversion Hs.
  - inversion Hf; subst. repeat split; assumption.
Qed.

Lemma contract_object_body : object_body_contract V.
Proof.
  intros url backend st r props Hr Hok Hjson.
  destruct (contract url backend st)
    as (_ & st' & settlement & Hrun & _ & Hload & Hcases).
  exists st', (opening url ++ settlement ++ [Did (SetLoading false)]).
  rewrite Hr in Hcases.
  destruct Hcases as [(r' & html & Hs & -> & Hres & Herr)|(read & err & Hf & _)].
  - inversion Hs as [r0 d html0 _ Hjson' Hget]; subst.
    rewrite Hjson in Hjson'. injection Hjson' as <-.
    cbn in Hget. injection Hget as Hget.
    repeat split; try assumption. symmetry. exact Hget.
  - inversion Hf as [|r0 Hno|r0 e _ Hjson'|r0 d e _ Hjson' Hget]; subst.
    + congruence.
    + congruence.
    + rewrite Hjson in Hjson'. injection Hjson' as <-. discriminate Hget.
Qed.
End OutcomesFromContract.

(** X1. When the request itself fails (fetch rejects), the submission ends
    with Error equal to the message of the rejection, or to "An error
    occurred" when what was thrown is not an Error; no body is read,
    Result stays null and loading is reset.  Both pages. *)
Theorem network_failure_shows_its_message :
  network_failure_contract basic /\ network_failure_contract themed.
Proof.
  split.
  - apply contract_network_failure, basic_contract.
  - apply contract_network_failure, themed_contract.
Qed.

(** X2. For a 2xx response whose body parses to a JSON object, Result
    becomes the object's [cloned_html] property and nothing else of the
    body matters; Error stays empty, loading is reset, and the body was
    read once.  Both pages. *)
Theorem result_is_the_cloned_html_property :
  object_body_contract basic /\ object_body_contract themed.
Proof.
  split.
  - apply contract_object_body, basic_contract.
  - apply contract_object_body, themed_contract.
Qed.

Lemma falsy_child_of_falsy (v : jsval) :
  truthy v = false ->
  falsy_child v = match v with JNum _ => Some "0" | _ => None end.
Proof.
  intros Hfalsy. unfold falsy_child. rewrite Hfalsy.
  destruct v as [| |b|n|s|items|props|name message]; try reflexivity.
  cbn in Hfalsy. apply negb_false_iff, Z.eqb_eq in Hfalsy. subst n. reflexivity.
Qed.

(** X3. A successful response whose [cloned_html] is falsy never shows a
    result panel, an error box or a spinner, and leaves the controls
    enabled under the label "Clone Website".  When the value is the empty
    string, false, null or absent, nothing is rendered in the panel's
    place and the page looks idle; when it is the number 0, the card
    shows the text 0 there.  Both pages. *)
Theorem falsy_cloned_html_shows_no_panel :
  (forall (url : string) (backend : string -> RequestInit -> Settled Response)
          (st : Basic.State) (r : Response) (props : list (string * jsval)),
      backend endpoint (clone_request url) = Fulfilled r ->
      ok r = true ->
      json r = Fulfilled (JObj props) ->
      truthy (assoc "cloned_html" props) = false ->
      let st' := (run Basic.apply backend (Basic.handleSubmit url) st).1.1 in
      let view := Basic.Home st' in
      Basic.preview_srcDoc view = None
      /\ Basic.error_box view = None
      /\ Basic.spinner view = false
      /\ Basic.input_disabled view = false
      /\ Basic.submit_disabled view = false
      /\ Basic.submit_label view = "Clone Website"
      /\ falsy_child (Basic.clonedHtml st')
         = match assoc "cloned_html" props with
           | JNum _ => Some "0"
           | _ => None
           end)
  /\ (forall (url : string) (backend : string -> RequestInit -> Settled Response)
          (st : Themed.State) (r : Response) (props : list (string * jsval)),
      backend endpoint (clone_request url) = Fulfilled r ->
      ok r = true ->
      json r = Fulfilled (JObj props) ->
      truthy (assoc "cloned_html" props) = false ->
      let st' := (run Themed.apply backend (Themed.handleSubmit url) st).1.1 in
      let view := Themed.Home st' in
      Themed.result view = None
      /\ Themed.error_box view = None
      /\ Themed.spinner view = None
      /\ Themed.input_disabled view = false
      /\ Themed.submit_disabled view = false
      /\ Themed.submit_label view = "Clone Website"
      /\ falsy_child (Themed.clonedHtml st')
         = match assoc "cloned_html" props with
           | JNum _ => Some "0"
           | _ => None
           end).
Proof.
  split; intros url backend st r props Hr Hok Hjson Hfalsy st' view; subst view st'.
  - destruct (contract_object_body basic basic_contract url backend st r props Hr Hok Hjson)
      as (st' & log & Hrun & Hres & Herr & Hload & _).
    change (run Basic.apply backend (Basic.handleSubmit url) st = (st', log, None)) in Hrun.
    cbn in Hres, Herr, Hload. rewrite Hrun.
    change ((st', log, None).1.1) with st'. rewrite Hres.
    rewrite (falsy_child_of_falsy _ Hfalsy).
    unfold Basic.Home. cbn. rewrite Hres, Herr, Hload, Hfalsy. repeat split.
  - destruct (contract_object_body themed themed_contract url backend st r props Hr Hok Hjson)
      as (st' & log & Hrun & Hres & Herr & Hload & _).
    change (run Themed.apply backend (Themed.handleSubmit url) st = (st', log, None)) in Hrun.
    cbn in Hres, Herr, Hload. rewrite Hrun.
    change ((st', log, None).1.1) with st'. rewrite Hres.
    rewrite (falsy_child_of_falsy _ Hfalsy).
    unfold Themed.Home. cbn. rewrite Hres, Herr, Hload, Hfalsy. repeat split.
Qed.

End Outcomes.

(** ** More about the pages: what is shown, and how a request ends *)

Section PageLife.
Context `{E : Engine}.

#[local] Opaque ok number_to_string String.app.

Lemma page_inv_cases (V : Variant) (st : St V) (parked : list Suspended) :
  page_inv V st parked ->
  (parked = [] /\ v_loading V st = false
   /\ (v_error V st = None \/ v_result V st = JNull))
  \/ (exists w, parked = [w] /\ v_loading V st = true
      /\ v_error V st = None /\ v_result V st = JNull).
Proof.
  destruct parked as [|w [|w' rest]]; cbn.
  - intros [Hloading Hexcl]. left. repeat split; assumption.
  - intros [(Hloading & Herr & Hres) _]. right. exists w. repeat split; assumption.
  - contradiction.
Qed.

(** X4. On every page reached from a freshly mounted one, at most one of
    the error box, the spinner and the result panel is rendered, and the
    spinner is rendered exactly while loading.  Both pages. *)
Theorem at_most_one_panel :
  (forall (evs : list Basic.Event) (pg : Basic.Page),
      Basic.steps evs Basic.mounted = Some pg ->
      (basic_panels (Basic.Home (Basic.ui pg)) <= 1)%nat
      /\ Basic.spinner (Basic.Home (Basic.ui pg)) = Basic.loading (Basic.ui pg))
  /\ (forall (evs : list Themed.Event) (pg : Themed.Page),
      Themed.steps evs Themed.mounted = Some pg ->
      (themed_panels (Themed.Home (Themed.ui pg)) <= 1)%nat
      /\ present (Themed.spinner (Themed.Home (Themed.ui pg)))
         = Themed.loading (Themed.ui pg)).
Proof.
  split; intros evs pg Hsteps.
  - assert (Hinv : page_inv basic (Basic.ui pg) (Basic.pending pg))
      by (eapply basic_steps_inv; [apply basic_mounted_inv|exact Hsteps]).
    split; [|reflexivity].
    apply page_inv_cases in Hinv. unfold basic_panels. cbn in *.
    destruct Hinv as [(_ & -> & [-> | ->])|(w & _ & -> & -> & ->)]; cbn.
    + destruct (truthy _); cbn; lia.
    + destruct (Basic.error _) as [msg|]; [destruct (String.eqb msg "")|]; cbn; lia.
    + lia.
  - assert (Hinv : page_inv themed (Themed.ui pg) (Themed.pending pg))
      by (eapply themed_steps_inv; [apply themed_mounted_inv|exact Hsteps]).
    split; [|cbn; destruct (Themed.loading _); reflexivity].
    apply page_inv_cases in Hinv. unfold themed_panels. cbn in *.
    destruct Hinv as [(_ & -> & [-> | ->])|(w & _ & -> & -> & ->)]; cbn.
    + destruct (truthy _); cbn; lia.
    + destruct (Themed.error _) as [msg|]; [destruct (String.eqb msg "")|]; cbn; lia.
    + lia.
Qed.

(** X5. While a request is in flight the result panel is gone, and with
    it the raw-HTML button and the download button: on every reachable
    themed page with loading true, neither click is possible. *)
Theorem no_result_actions_while_loading :
  forall (evs : list Themed.Event) (pg : Themed.Page),
    Themed.steps evs Themed.mounted = Some pg ->
    Themed.loading (Themed.ui pg) = true ->
    Themed.result (Themed.Home (Themed.ui pg)) = None
    /\ Themed.step Themed.RawClicked pg = None
    /\ Themed.step Themed.DownloadClicked pg = None.
Proof.
  intros evs pg Hsteps Hloading.
  assert (Hinv : page_inv themed (Themed.ui pg) (Themed.pending pg))
    by (eapply themed_steps_inv; [apply themed_mounted_inv|exact Hsteps]).
  apply page_inv_cases in Hinv. cbn in Hinv.
  destruct Hinv as [(_ & Hidle & _)|(w & _ & _ & _ & Hres)]; [congruence|].
  cbn. rewrite Hres. cbn. repeat split.
Qed.

(** X6. Resubmission is always possible once the page has settled: on
    every reachable page with loading false and a valid input, submitting
    is accepted, parks exactly one request, sets loading, clears Error and
    Result, and keeps the text of the input.  An invalid input blocks the
    submission on any page.  Both pages. *)
Theorem resubmission_is_always_possible :
  (forall (evs : list Basic.Event) (pg : Basic.Page),
      Basic.steps evs Basic.mounted = Some pg ->
      Basic.loading (Basic.ui pg) = false ->
      url_input_valid (Basic.targetUrl (Basic.ui pg)) = true ->
      exists pg' w,
        Basic.step Basic.Submitted pg = Some pg'
        /\ Basic.pending pg' = [w]
        /\ Basic.loading (Basic.ui pg') = true
        /\ Basic.error (Basic.ui pg') = None
        /\ Basic.clonedHtml (Basic.ui pg') = JNull
        /\ Basic.targetUrl (Basic.ui pg') = Basic.targetUrl (Basic.ui pg))
  /\ (forall (evs : list Themed.Event) (pg : Themed.Page),
      Themed.steps evs Themed.mounted = Some pg ->
      Themed.loading (Themed.ui pg) = false ->
      url_input_valid (Themed.targetUrl (Themed.ui pg)) = true ->
      exists pg' w,
        Themed.step Themed.Submitted pg = Some pg'
        /\ Themed.pending pg' = [w]
        /\ Themed.loading (Themed.ui pg') = true
        /\ Themed.error (Themed.ui pg') = None
        /\ Themed.clonedHtml (Themed.ui pg') = JNull
        /\ Themed.targetUrl (Themed.ui pg') = Themed.targetUrl (Themed.ui pg))
  /\ (forall pg : Basic.Page,
      url_input_valid (Basic.targetUrl (Basic.ui pg)) = false ->
      Basic.step Basic.Submitted pg = None)
  /\ (forall pg : Themed.Page,
      url_input_valid (Themed.targetUrl (Themed.ui pg)) = false ->
      Themed.step Themed.Submitted pg = None).
Proof.
  split; [|split; [|split]].
  - intros evs pg Hsteps Hloading Hvalid.
    assert (Hinv : page_inv basic (Basic.ui pg) (Basic.pending pg))
      by (eapply basic_steps_inv; [apply basic_mounted_inv|exact Hsteps]).
    apply page_inv_cases in Hinv. cbn in Hinv.
    destruct Hinv as [(Hpending & _)|(w & _ & Hbusy & _)]; [|congruence].
    cbn. rewrite Hloading, Hvalid, Hpending. cbn.
    eexists _, _. repeat split.
  - intros evs pg Hsteps Hloading Hvalid.
    assert (Hinv : page_inv themed (Themed.ui pg) (Themed.pending pg))
      by (eapply themed_steps_inv; [apply themed_mounted_inv|exact Hsteps]).
    apply page_inv_cases in Hinv. cbn in Hinv.
    destruct Hinv as [(Hpending & _)|(w & _ & Hbusy & _)]; [|congruence].
    cbn. rewrite Hloading, Hvalid, Hpending. cbn.
    eexists _, _. repeat split.
  - intros pg Hinvalid. cbn. rewrite Hinvalid.
    destruct (Basic.loading _); reflexivity.
  - intros pg Hinvalid. cbn. rewrite Hinvalid.
    destruct (Themed.loading _); reflexivity.
Qed.

End PageLife.

(** ** More about the pages: a request from submission to settlement *)

Section RequestLife.
Context `{E : Engine}.

#[local] Opaque ok number_to_string String.app.

(** X7. The page does what the handler run to its end does.  On a page
    with nothing in flight and a valid input, submitting and then letting
    the network answer with [o] (the request settles, then the body of a
    2xx response is read) is accepted and leaves nothing parked and the
    very state that [run] computes against a backend answering [o].  Both
    pages. *)
Theorem page_follows_the_handler :
  (forall (pg : Basic.Page) (o : Settled Response),
      Basic.pending pg = [] ->
      Basic.loading (Basic.ui pg) = false ->
      url_input_valid (Basic.targetUrl (Basic.ui pg)) = true ->
      Basic.steps (Basic.Submitted :: basic_answers o) pg
      = Some {| Basic.ui :=
                  (run Basic.apply (always o)
                     (Basic.handleSubmit (Basic.targetUrl (Basic.ui pg)))
                     (Basic.ui pg)).1.1;
                Basic.pending := [] |})
  /\ (forall (pg : Themed.Page) (o : Settled Response),
      Themed.pending pg = [] ->
      Themed.loading (Themed.ui pg) = false ->
      url_input_valid (Themed.targetUrl (Themed.ui pg)) = true ->
      Themed.steps (Themed.Submitted :: themed_answers o) pg
      = Some {| Themed.ui :=
                  (run Themed.apply (always o)
                     (Themed.handleSubmit (Themed.targetUrl (Themed.ui pg)))
                     (Themed.ui pg)).1.1;
                Themed.pending := [];
                Themed.browser := Themed.browser pg |}).
Proof.
  split.
  - intros [st parked] o Hpending Hloading Hvalid. cbn in Hpending, Hloading, Hvalid.
    subst parked. unfold basic_answers, always.
    cbn. rewrite Hloading, Hvalid. cbn.
    destruct o as [r|e]; cbn; [|reflexivity].
    destruct (ok r); cbn; [|reflexivity].
    destruct (json r) as [d|e]; cbn; [|reflexivity].
    destruct (get_prop d "cloned_html"); reflexivity.
  - intros [st parked b] o Hpending Hloading Hvalid. cbn in Hpending, Hloading, Hvalid.
    subst parked. unfold themed_answers, always.
    cbn. rewrite Hloading, Hvalid. cbn.
    destruct o as [r|e]; cbn; [|reflexivity].
    destruct (ok r); cbn; [|reflexivity].
    destruct (json r) as [d|e]; cbn; [|reflexivity].
    destruct (get_prop d "cloned_html"); reflexivity.
Qed.

Lemma ends_within_S (n : nat) (p : prog unit) :
  ends_within n p -> ends_within (S n) p.
Proof.
  revert n. induction p as [a|e|a k IH|url init k IH|r k IH]; intros n; cbn; auto.
  - destruct n as [|m]; [contradiction|]. intros Hk o. apply IH, Hk.
  - destruct n as [|m]; [contradiction|]. apply IH.
Qed.

Lemma parked_within_S (n : nat) (w : Suspended) :
  parked_within n w -> parked_within (S n) w.
Proof.
  destruct w as [url init k|r k]; cbn.
  - intros Hk o. apply ends_within_S, Hk.
  - apply ends_within_S.
Qed.

(** A handler that ends within [n] answers parks, if at all, with one
    answer fewer to wait for. *)
Lemma exec_ends_within {S : Type} (apply : Action -> S -> S)
    (n : nat) (p : prog unit) (st : S) :
  ends_within n p ->
  match exec apply p st with
  | (_, _, Waiting w) => exists m, n = Datatypes.S m /\ parked_within m w
  | _ => True
  end.
Proof.
  revert st. induction p as [a|e|a k IH|url init k IH|r k IH]; intros st Hp; cbn in *.
  - exact I.
  - exact I.
  - specialize (IH (apply a st) Hp).
    destruct (exec apply k (apply a st)) as [[st' log] status]. exact IH.
  - destruct n as [|m]; [contradiction|]. exists m. split; [reflexivity|exact Hp].
  - destruct n as [|m]; [contradiction|]. exists m. split; [reflexivity|exact Hp].
Qed.

Lemma basic_handleSubmit_ends_within (url : string) :
  ends_within 2 (Basic.handleSubmit url).
Proof.
  cbn. intros [r|e]; cbn; [|exact I].
  destruct (ok r); cbn; [|exact I].
  destruct (json r) as [d|e]; cbn; [|exact I].
  destruct (get_prop d "cloned_html"); exact I.
Qed.

Lemma themed_handleSubmit_ends_within (url : string) :
  ends_within 2 (Themed.handleSubmit url).
Proof.
  cbn. intros [r|e]; cbn; [|exact I].
  destruct (ok r); cbn; [|exact I].
  destruct (json r) as [d|e]; cbn; [|exact I].
  destruct (get_prop d "cloned_html"); exact I.
Qed.

#[local] Opaque Basic.handleSubmit Themed.handleSubmit.

(** Every parked handler is at most one answer away from its last
    [await]. *)
Lemma basic_step_within (ev : Basic.Event) (pg pg' : Basic.Page) :
  Forall (parked_within 1) (Basic.pending pg) ->
  Basic.step ev pg = Some pg' ->
  Forall (parked_within 1) (Basic.pending pg').
Proof.
  intros Hall Hstep.
  destruct ev as [text| |i outcome|i]; cbn in Hstep.
  - destruct (Basic.loading _); [discriminate|]. injection Hstep as <-. exact Hall.
  - destruct (Basic.loading _); [discriminate|].
    destruct (url_input_valid _); [|discriminate]. cbn in Hstep.
    pose proof (exec_ends_within Basic.apply 2 _ (Basic.ui pg)
                  (basic_handleSubmit_ends_within (Basic.targetUrl (Basic.ui pg))))
      as Hexec.
    destruct (exec Basic.apply _ (Basic.ui pg)) as [[st' log] [|e|w]];
      injection Hstep as <-; cbn; try exact Hall.
    destruct Hexec as (m & [= <-] & Hw).
    apply Forall_app. split; [exact Hall|]. constructor; [exact Hw|constructor].
  - destruct (Basic.pending pg !! i) as [[url init k|r k]|] eqn:Hi; try discriminate.
    injection Hstep as <-. unfold Basic.resume.
    pose proof (Forall_lookup_1 _ _ _ _ Hall Hi outcome) as Hk. cbn in Hk.
    pose proof (exec_ends_within Basic.apply 1 _ (Basic.ui pg) Hk) as Hexec.
    destruct (exec Basic.apply _ (Basic.ui pg)) as [[st' log] [|e|w]]; cbn.
    + apply Forall_delete, Hall.
    + apply Forall_delete, Hall.
    + destruct Hexec as (m & [= <-] & Hw).
      apply Forall_insert; [exact Hall|]. apply parked_within_S, Hw.
  - destruct (Basic.pending pg !! i) as [[url init k|r k]|] eqn:Hi; try discriminate.
    injection Hstep as <-. unfold Basic.resume.
    pose proof (Forall_lookup_1 _ _ _ _ Hall Hi) as Hk. cbn in Hk.
    pose proof (exec_ends_within Basic.apply 1 _ (Basic.ui pg) Hk) as Hexec.
    destruct (exec Basic.apply _ (Basic.ui pg)) as [[st' log] [|e|w]]; cbn.
    + apply Forall_delete, Hall.
    + apply Forall_delete, Hall.
    + destruct Hexec as (m & [= <-] & Hw).
      apply Forall_insert; [exact Hall|]. apply parked_within_S, Hw.
Qed.

Lemma themed_step_within (ev : Themed.Event) (pg pg' : Themed.Page) :
  Forall (parked_within 1) (Themed.pending pg) ->
  Themed.step ev pg = Some pg' ->
  Forall (parked_within 1) (Themed.pending pg').
Proof.
  intros Hall Hstep.
  destruct ev as [text| |i outcome|i| | |]; cbn in Hstep.
  - destruct (Themed.loading _); [discriminate|]. injection Hstep as <-. exact Hall.
  - destruct (Themed.loading _); [discriminate|].
    destruct (url_input_valid _); [|discriminate]. cbn in Hstep.
    pose proof (exec_ends_within Themed.apply 2 _ (Themed.ui pg)
                  (themed_handleSubmit_ends_within (Themed.targetUrl (Themed.ui pg))))
      as Hexec.
    destruct (exec Themed.apply _ (Themed.ui pg)) as [[st' log] [|e|w]];
      injection Hstep as <-; cbn; try exact Hall.
    destruct Hexec as (m & [= <-] & Hw).
    apply Forall_app. split; [exact Hall|]. constructor; [exact Hw|constructor].
  - destruct (Themed.pending pg !! i) as [[url init k|r k]|] eqn:Hi; try discriminate.
    injection Hstep as <-. unfold Themed.resume.
    pose proof (Forall_lookup_1 _ _ _ _ Hall Hi outcome) as Hk. cbn in Hk.
    pose proof (exec_ends_within Themed.apply 1 _ (Themed.ui pg) Hk) as Hexec.
    destruct (exec Themed.apply _ (Themed.ui pg)) as [[st' log] [|e|w]]; cbn.
    + apply Forall_delete, Hall.
    + apply Forall_delete, Hall.
    + destruct Hexec as (m & [= <-] & Hw).
      apply Forall_insert; [exact Hall|]. apply parked_within_S, Hw.
  - destruct (Themed.pending pg !! i) as [[url init k|r k]|] eqn:Hi; try discriminate.
    injection Hstep as <-. unfold Themed.resume.
    pose proof (Forall_lookup_1 _ _ _ _ Hall Hi) as Hk. cbn in Hk.
    pose proof (exec_ends_within Themed.apply 1 _ (Themed.ui pg) Hk) as Hexec.
    destruct (exec Themed.apply _ (Themed.ui pg)) as [[st' log] [|e|w]]; cbn.
    + apply Forall_delete, Hall.
    + apply Forall_delete, Hall.
    + destruct Hexec as (m & [= <-] & Hw).
      apply Forall_insert; [exact Hall|]. apply parked_within_S, Hw.
  - injection Hstep as <-. exact Hall.
  - destruct (truthy _); [|discriminate]. injection Hstep as <-. exact Hall.
  - destruct (truthy _); [|discriminate]. injection Hstep as <-. exact Hall.
Qed.

Lemma basic_steps_within (evs : list Basic.Event) (pg pg' : Basic.Page) :
  Forall (parked_within 1) (Basic.pending pg) ->
  Basic.steps evs pg = Some pg' ->
  Forall (parked_within 1) (Basic.pending pg').
Proof.
  revert pg. induction evs as [|ev evs IH]; intros pg Hall Hsteps; cbn in Hsteps.
  - injection Hsteps as <-. exact Hall.
  - destruct (Basic.step ev pg) as [pg1|] eqn:Hstep; [|discriminate].
    cbn in Hsteps. eapply IH; [|exact Hsteps].
    eapply basic_step_within; eassumption.
Qed.

Lemma themed_steps_within (evs : list Themed.Event) (pg pg' : Themed.Page) :
  Forall (parked_within 1) (Themed.pending pg) ->
  Themed.steps evs pg = Some pg' ->
  Forall (parked_within 1) (Themed.pending pg').
Proof.
  revert pg. induction evs as [|ev evs IH]; intros pg Hall Hsteps; cbn in Hsteps.
  - injection Hsteps as <-. exact Hall.
  - destruct (Themed.step ev pg) as [pg1|] eqn:Hstep; [|discriminate].
    cbn in Hsteps. eapply IH; [|exact Hsteps].
    eapply themed_step_within; eassumption.
Qed.

(** The matching answer always resumes the one parked handler, which then
    ends or parks with one answer fewer to wait for. *)
Lemma basic_answer_progress (n : nat) (pg : Basic.Page) (w : Suspended)
    (o : Settled Response) :
  Basic.pending pg = [w] ->
  parked_within n w ->
  exists pg1,
    Basic.step (basic_answer w o) pg = Some pg1
    /\ (Basic.pending pg1 = []
        \/ exists w1 m, n = S m /\ Basic.pending pg1 = [w1] /\ parked_within m w1).
Proof.
  intros Hpending Hw.
  destruct w as [url init k|r k]; cbn in *; rewrite Hpending; cbn;
    (eexists; split; [reflexivity|]); unfold Basic.resume.
  - pose proof (exec_ends_within Basic.apply n _ (Basic.ui pg) (Hw o)) as Hexec.
    destruct (exec Basic.apply _ (Basic.ui pg)) as [[st' log] [|e|w1]];
      rewrite Hpending; cbn; [left; reflexivity..|].
    destruct Hexec as (m & -> & Hw1). right. exists w1, m. repeat split. exact Hw1.
  - pose proof (exec_ends_within Basic.apply n _ (Basic.ui pg) Hw) as Hexec.
    destruct (exec Basic.apply _ (Basic.ui pg)) as [[st' log] [|e|w1]];
      rewrite Hpending; cbn; [left; reflexivity..|].
    destruct Hexec as (m & -> & Hw1). right. exists w1, m. repeat split. exact Hw1.
Qed.

Lemma themed_answer_progress (n : nat) (pg : Themed.Page) (w : Suspended)
    (o : Settled Response) :
  Themed.pending pg = [w] ->
  parked_within n w ->
  exists pg1,
    Themed.step (themed_answer w o) pg = Some pg1
    /\ (Themed.pending pg1 = []
        \/ exists w1 m, n = S m /\ Themed.pending pg1 = [w1] /\ parked_within m w1).
Proof.
  intros Hpending Hw.
  destruct w as [url init k|r k]; cbn in *; rewrite Hpending; cbn;
    (eexists; split; [reflexivity|]); unfold Themed.resume.
  - pose proof (exec_ends_within Themed.apply n _ (Themed.ui pg) (Hw o)) as Hexec.
    destruct (exec Themed.apply _ (Themed.ui pg)) as [[st' log] [|e|w1]];
      rewrite Hpending; cbn; [left; reflexivity..|].
    destruct Hexec as (m & -> & Hw1). right. exists w1, m. repeat split. exact Hw1.
  - pose proof (exec_ends_within Themed.apply n _ (Themed.ui pg) Hw) as Hexec.
    destruct (exec Themed.apply _ (Themed.ui pg)) as [[st' log] [|e|w1]];
      rewrite Hpending; cbn; [left; reflexivity..|].
    destruct Hexec as (m & -> & Hw1). right. exists w1, m. repeat split. exact Hw1.
Qed.

Lemma basic_idle_of_inv (pg : Basic.Page) :
  page_inv basic (Basic.ui pg) (Basic.pending pg) ->
  Basic.pending pg = [] -> basic_idle pg.
Proof.
  intros Hinv Hpending. rewrite Hpending in Hinv. destruct Hinv as [Hloading _].
  split; assumption.
Qed.

Lemma themed_idle_of_inv (pg : Themed.Page) :
  page_inv themed (Themed.ui pg) (Themed.pending pg) ->
  Themed.pending pg = [] -> themed_idle pg.
Proof.
  intros Hinv Hpending. rewrite Hpending in Hinv. destruct Hinv as [Hloading _].
  split; assumption.
Qed.

(** X8. A request in flight ends as soon as the network has answered, in
    at most two answers.  On every reachable page with loading true one
    handler is parked; whatever the request settles with, the matching
    network event is accepted, and either the page is idle again (loading
    false, nothing parked) or the handler waits for the body, and then the
    next answer is accepted and leaves the page idle.  Both pages. *)
Theorem request_in_flight_ends :
  (forall (evs : list Basic.Event) (pg : Basic.Page),
      Basic.steps evs Basic.mounted = Some pg ->
      Basic.loading (Basic.ui pg) = true ->
      exists w,
        Basic.pending pg = [w]
        /\ forall o, exists pg1,
            Basic.step (basic_answer w o) pg = Some pg1
            /\ (basic_idle pg1
                \/ exists w1,
                    Basic.pending pg1 = [w1]
                    /\ forall o1, exists pg2,
                        Basic.step (basic_answer w1 o1) pg1 = Some pg2
                        /\ basic_idle pg2))
  /\ (forall (evs : list Themed.Event) (pg : Themed.Page),
      Themed.steps evs Themed.mounted = Some pg ->
      Themed.loading (Themed.ui pg) = true ->
      exists w,
        Themed.pending pg = [w]
        /\ forall o, exists pg1,
            Themed.step (themed_answer w o) pg = Some pg1
            /\ (themed_idle pg1
                \/ exists w1,
                    Themed.pending pg1 = [w1]
                    /\ forall o1, exists pg2,
                        Themed.step (themed_answer w1 o1) pg1 = Some pg2
                        /\ themed_idle pg2)).
Proof.
  split; intros evs pg Hsteps Hloading.
  - assert (Hinv : page_inv basic (Basic.ui pg) (Basic.pending pg))
      by (eapply basic_steps_inv; [apply basic_mounted_inv|exact Hsteps]).
    assert (Hall : Forall (parked_within 1) (Basic.pending pg))
      by (eapply basic_steps_within; [|exact Hsteps]; constructor).
    destruct (page_inv_cases _ _ _ Hinv) as [(_ & Hidle & _)|(w & Hpending & _)];
      [cbn in Hidle; congruence|].
    exists w. split; [exact Hpending|]. intros o.
    rewrite Hpending in Hall. apply Forall_cons in Hall as [Hw _].
    destruct (basic_answer_progress 1 pg w o Hpending Hw) as (pg1 & Hstep1 & Hnext).
    exists pg1. split; [exact Hstep1|].
    pose proof (basic_step_inv _ _ _ Hinv Hstep1) as Hinv1.
    destruct Hnext as [Hnone|(w1 & m & [= <-] & Hpending1 & Hw1)].
    + left. apply basic_idle_of_inv; assumption.
    + right. exists w1. split; [exact Hpending1|]. intros o1.
      destruct (basic_answer_progress 0 pg1 w1 o1 Hpending1 Hw1)
        as (pg2 & Hstep2 & Hnext2).
      exists pg2. split; [exact Hstep2|].
      pose proof (basic_step_inv _ _ _ Hinv1 Hstep2) as Hinv2.
      destruct Hnext2 as [Hnone|(w2 & m & [=] & _)].
      apply basic_idle_of_inv; assumption.
  - assert (Hinv : page_inv themed (Themed.ui pg) (Themed.pending pg))
      by (eapply themed_steps_inv; [apply themed_mounted_inv|exact Hsteps]).
    assert (Hall : Forall (parked_within 1) (Themed.pending pg))
      by (eapply themed_steps_within; [|exact Hsteps]; constructor).
    destruct (page_inv_cases _ _ _ Hinv) as [(_ & Hidle & _)|(w & Hpending & _)];
      [cbn in Hidle; congruence|].
    exists w. split; [exact Hpending|]. intros o.
    rewrite Hpending in Hall. apply Forall_cons in Hall as [Hw _].
    destruct (themed_answer_progress 1 pg w o Hpending Hw) as (pg1 & Hstep1 & Hnext).
    exists pg1. split; [exact Hstep1|].
    pose proof (themed_step_inv _ _ _ Hinv Hstep1) as Hinv1.
    destruct Hnext as [Hnone|(w1 & m & [= <-] & Hpending1 & Hw1)].
    + left. apply themed_idle_of_inv; assumption.
    + right. exists w1. split; [exact Hpending1|]. intros o1.
      destruct (themed_answer_progress 0 pg1 w1 o1 Hpending1 Hw1)
        as (pg2 & Hstep2 & Hnext2).
      exists pg2. split; [exact Hstep2|].
      pose proof (themed_step_inv _ _ _ Hinv1 Hstep2) as Hinv2.
      destruct Hnext2 as [Hnone|(w2 & m & [=] & _)].
      apply themed_idle_of_inv; assumption.
Qed.

End RequestLife.

(** ** More about the pages: what each event leaves alone *)

Section Frames.
Context `{E : Engine}.

(** A handler touches neither the input text, nor the display mode, nor
    the theme. *)
Lemma themed_exec_frame (p : prog unit) (st : Themed.State) :
  Themed.targetUrl (exec Themed.apply p st).1.1 = Themed.targetUrl st
  /\ Themed.showRawHtml (exec Themed.apply p st).1.1 = Themed.showRawHtml st
  /\ Themed.isDarkMode (exec Themed.apply p st).1.1 = Themed.isDarkMode st.
Proof.
  revert st. induction p as [a|e|a k IH|url init k IH|r k IH]; intros st; cbn;
    try (repeat split; reflexivity).
  specialize (IH (Themed.apply a st)).
  destruct (exec Themed.apply k (Themed.apply a st)) as [[st' log] status].
  cbn in *. destruct IH as (-> & -> & ->). destruct a; repeat split.
Qed.

Lemma themed_resume_frame (i : nat) (p : prog unit) (pg : Themed.Page) :
  Themed.targetUrl (Themed.ui (Themed.resume i p pg)) = Themed.targetUrl (Themed.ui pg)
  /\ Themed.showRawHtml (Themed.ui (Themed.resume i p pg)) = Themed.showRawHtml (Themed.ui pg)
  /\ Themed.isDarkMode (Themed.ui (Themed.resume i p pg)) = Themed.isDarkMode (Themed.ui pg)
  /\ Themed.browser (Themed.resume i p pg) = Themed.browser pg.
Proof.
  unfold Themed.resume. pose proof (themed_exec_frame p (Themed.ui pg)) as Hframe.
  destruct (exec Themed.apply p (Themed.ui pg)) as [[st' log] status].
  cbn in *. destruct Hframe as (-> & -> & ->). repeat split.
Qed.

#[local] Opaque Themed.handleSubmit.

Lemma themed_step_frame (ev : Themed.Event) (pg pg' : Themed.Page) :
  Themed.step ev pg = Some pg' ->
  Themed.isDarkMode (Themed.ui pg') = theme_after (Themed.isDarkMode (Themed.ui pg)) [ev]
  /\ Themed.showRawHtml (Themed.ui pg') = raw_after (Themed.showRawHtml (Themed.ui pg)) [ev]
  /\ Themed.targetUrl (Themed.ui pg') = input_after (Themed.targetUrl (Themed.ui pg)) [ev].
Proof.
  intros Hstep. destruct ev as [text| |i outcome|i| | |]; cbn in Hstep.
  - destruct (Themed.loading _); [discriminate|]. injection Hstep as <-. repeat split.
  - destruct (Themed.loading _); [discriminate|].
    destruct (url_input_valid _); [|discriminate]. cbn in Hstep.
    pose proof (themed_exec_frame (Themed.handleSubmit (Themed.targetUrl (Themed.ui pg)))
                  (Themed.ui pg)) as Hframe.
    destruct (exec Themed.apply _ (Themed.ui pg)) as [[st' log] status].
    injection Hstep as <-. cbn in *. destruct Hframe as (-> & -> & ->). repeat split.
  - destruct (Themed.pending pg !! i) as [[url init k|r k]|]; try discriminate.
    injection Hstep as <-.
    destruct (themed_resume_frame i (k outcome) pg) as (-> & -> & -> & _). repeat split.
  - destruct (Themed.pending pg !! i) as [[url init k|r k]|]; try discriminate.
    injection Hstep as <-.
    destruct (themed_resume_frame i (k (json r)) pg) as (-> & -> & -> & _). repeat split.
  - injection Hstep as <-. repeat split.
  - destruct (truthy _); [|discriminate]. injection Hstep as <-. repeat split.
  - destruct (truthy _); [|discriminate]. injection Hstep as <-. repeat split.
Qed.

(** X9. Only its own control changes a piece of view state.  After any
    sequence of events the themed page has accepted, the theme flag is
    the old one flipped once per click on the theme button, the display
    mode is the old one flipped once per click on the raw-HTML button,
    and the input holds the text typed last (the old text if nothing was
    typed): submitting, settling and downloading change none of them. *)
Theorem view_state_follows_its_controls :
  forall (evs : list Themed.Event) (pg pg' : Themed.Page),
    Themed.steps evs pg = Some pg' ->
    Themed.isDarkMode (Themed.ui pg') = theme_after (Themed.isDarkMode (Themed.ui pg)) evs
    /\ Themed.showRawHtml (Themed.ui pg') = raw_after (Themed.showRawHtml (Themed.ui pg)) evs
    /\ Themed.targetUrl (Themed.ui pg') = input_after (Themed.targetUrl (Themed.ui pg)) evs.
Proof.
  induction evs as [|ev evs IH]; intros pg pg' Hsteps; cbn in Hsteps.
  - injection Hsteps as <-. repeat split.
  - destruct (Themed.step ev pg) as [pg1|] eqn:Hstep; [|discriminate]. cbn in Hsteps.
    destruct (IH _ _ Hsteps) as (-> & -> & ->).
    destruct (themed_step_frame _ _ _ Hstep) as (-> & -> & ->).
    destruct ev; repeat split.
Qed.

(** *** Downloads *)

Lemma downloadHtml_effect (v : jsval) (b : Browser) :
  let b' := Themed.downloadHtml v b in
  saved b' = saved b ++ [{| file_name := "cloned_site.html";
                            file_type := "text/html";
                            file_bytes := utf8_encode (ToString v) |}]
  /\ object_urls b' = delete (next_url b) (object_urls b)
  /\ body_children b'
     = List.filter (fun c => negb (Nat.eqb (node c) (next_node b))) (body_children b)
  /\ next_url b' = S (next_url b).
Proof.
  unfold Themed.downloadHtml, click. cbn. rewrite lookup_insert_eq. cbn.
  split; [reflexivity|]. split; [apply delete_insert_eq|]. split; [|reflexivity].
  rewrite List.filter_app. cbn. rewrite Nat.eqb_refl. cbn. apply app_nil_r.
Qed.

Lemma themed_step_browser (ev : Themed.Event) (pg pg' : Themed.Page) :
  Themed.step ev pg = Some pg' ->
  match ev with
  | Themed.DownloadClicked =>
      Themed.browser pg'
      = Themed.downloadHtml (Themed.clonedHtml (Themed.ui pg)) (Themed.browser pg)
  | _ => Themed.browser pg' = Themed.browser pg
  end.
Proof.
  intros Hstep. destruct ev as [text| |i outcome|i| | |]; cbn in Hstep.
  - destruct (Themed.loading _); [discriminate|]. injection Hstep as <-. reflexivity.
  - destruct (Themed.loading _); [discriminate|].
    destruct (url_input_valid _); [|discriminate]. cbn in Hstep.
    destruct (exec Themed.apply _ (Themed.ui pg)) as [[st' log] status].
    injection Hstep as <-. reflexivity.
  - destruct (Themed.pending pg !! i) as [[url init k|r k]|]; try discriminate.
    injection Hstep as <-. apply themed_resume_frame.
  - destruct (Themed.pending pg !! i) as [[url init k|r k]|]; try discriminate.
    injection Hstep as <-. apply themed_resume_frame.
  - injection Hstep as <-. reflexivity.
  - destruct (truthy _); [|discriminate]. injection Hstep as <-. reflexivity.
  - destruct (truthy _); [|discriminate]. injection Hstep as <-. reflexivity.
Qed.

Lemma themed_steps_browser (evs : list Themed.Event) (pg pg' : Themed.Page) :
  Themed.steps evs pg = Some pg' ->
  object_urls (Themed.browser pg) = ∅ ->
  body_children (Themed.browser pg) = [] ->
  Forall named_cloned_site (saved (Themed.browser pg)) ->
  length (saved (Themed.browser pg'))
  = (length (saved (Themed.browser pg)) + downloads evs)%nat
  /\ next_url (Themed.browser pg') = (next_url (Themed.browser pg) + downloads evs)%nat
  /\ Forall named_cloned_site (saved (Themed.browser pg'))
  /\ object_urls (Themed.browser pg') = ∅
  /\ body_children (Themed.browser pg') = [].
Proof.
  revert pg. induction evs as [|ev evs IH]; intros pg Hsteps Hurls Hbody Hnamed;
    cbn in Hsteps.
  - injection Hsteps as <-. cbn. rewrite !Nat.add_0_r. repeat split; assumption.
  - destruct (Themed.step ev pg) as [pg1|] eqn:Hstep; [|discriminate]. cbn in Hsteps.
    pose proof (themed_step_browser _ _ _ Hstep) as Hb.
    destruct (downloadHtml_effect (Themed.clonedHtml (Themed.ui pg)) (Themed.browser pg))
      as (Hsaved & Hstore & Hdoc & Hnext).
    assert (Hcases :
      (ev = Themed.DownloadClicked
       /\ Themed.browser pg1
          = Themed.downloadHtml (Themed.clonedHtml (Themed.ui pg)) (Themed.browser pg))
      \/ (downloads (ev :: evs) = downloads evs
          /\ Themed.browser pg1 = Themed.browser pg)).
    { destruct ev; cbn; auto. }
    destruct Hcases as [[-> Hb1]|[Hcount Hb1]].
    + destruct (IH pg1 Hsteps) as (Hlen & Hnext' & Hnamed' & Hurls' & Hbody').
      * rewrite Hb1, Hstore, Hurls. apply delete_empty.
      * rewrite Hb1, Hdoc, Hbody. reflexivity.
      * rewrite Hb1, Hsaved. apply Forall_app. split; [exact Hnamed|].
        constructor; [split; reflexivity|constructor].
      * rewrite Hlen, Hnext'. rewrite Hb1, Hsaved, Hnext, length_app. cbn.
        repeat split; try assumption; lia.
    + rewrite Hcount. rewrite <- Hb1 in Hurls, Hbody, Hnamed |- *.
      apply IH; assumption.
Qed.

(** X10. Downloads leave nothing behind but the files.  On every page
    reached from a freshly mounted one, the files saved so far are one per
    click on the download button, each named cloned_site.html with type
    text/html; no object URL is left in the blob URL store, no link is
    left in the document, and each click took a new object URL. *)
Theorem downloads_leave_only_files :
  forall (evs : list Themed.Event) (pg : Themed.Page),
    Themed.steps evs Themed.mounted = Some pg ->
    length (saved (Themed.browser pg)) = downloads evs
    /\ next_url (Themed.browser pg) = downloads evs
    /\ Forall named_cloned_site (saved (Themed.browser pg))
    /\ object_urls (Themed.browser pg) = ∅
    /\ body_children (Themed.browser pg) = [].
Proof.
  intros evs pg Hsteps.
  apply (themed_steps_browser evs Themed.mounted pg Hsteps); try reflexivity.
  constructor.
Qed.

(** *** The two views *)

Lemma unstyled_Home (st : Themed.State) :
  unstyled (Themed.Home st) = Basic.Home (forget st).
Proof.
  destruct st as [url l html err raw dark].
  unfold unstyled, Themed.Home, Basic.Home, forget. cbn.
  destruct l, (truthy html), raw; reflexivity.
Qed.

(** X11. The themed page shows what the basic page shows.  Whatever the
    theme and the display mode, the themed view without its styling is
    the basic view of the same hooks: same input text, same disabled
    controls, same button label, same error box, same spinner, same
    Result on display.  So after the same typing, submitting and
    settling, from the mounted pages, the two pages show the same. *)
Theorem themed_view_is_basic_view_styled :
  (forall st : Themed.State, unstyled (Themed.Home st) = Basic.Home (forget st))
  /\ (forall (evs : list Basic.Event) (b : Basic.Page) (t : Themed.Page),
        Basic.steps evs Basic.mounted = Some b ->
        Themed.steps (map themed_event evs) Themed.mounted = Some t ->
        unstyled (Themed.Home (Themed.ui t)) = Basic.Home (Basic.ui b)).
Proof.
  split; [exact unstyled_Home|].
  intros evs b t Hb Ht.
  pose proof (steps_agree evs Basic.mounted Themed.mounted) as Hagree.
  rewrite Hb, Ht in Hagree. destruct Hagree as [Hui _]; [split; reflexivity|].
  rewrite Hui. apply unstyled_Home.
Qed.

End Frames.

(** ** The further theorems at concrete inputs *)

Lemma network_failure_shows_its_message_witness :
  exists st' log,
    run Basic.apply (always offline)
        (@Basic.handleSubmit reference_engine example_url) Basic.initial
    = (st', log, None)
    /\ Basic.error st' = Some "Failed to fetch"
    /\ Basic.clonedHtml st' = JNull
    /\ Basic.loading st' = false
    /\ bodies_read log = [].
Proof.
  apply (proj1 (@network_failure_shows_its_message reference_engine)
           example_url (always offline) Basic.initial
           (JError "TypeError" "Failed to fetch")).
  reflexivity.
Defined.

Lemma result_is_the_cloned_html_property_witness :
  exists st' log,
    run Themed.apply (always (Fulfilled hello))
        (@Themed.handleSubmit reference_engine example_url) Themed.initial
    = (st', log, None)
    /\ Themed.clonedHtml st' = JStr markup
    /\ Themed.error st' = None
    /\ Themed.loading st' = false
    /\ bodies_read log = [hello].
Proof.
  apply (proj2 (@result_is_the_cloned_html_property reference_engine)
           example_url (always (Fulfilled hello)) Themed.initial hello
           [("cloned_html", JStr markup)]).
  - reflexivity.
  - reflexivity.
  - reflexivity.
Defined.

Lemma falsy_cloned_html_shows_no_panel_witness :
  let st' :=
    (run Basic.apply (always (Fulfilled zero_clone))
       (@Basic.handleSubmit reference_engine example_url) Basic.initial).1.1 in
  let view := Basic.Home st' in
  Basic.preview_srcDoc view = None
  /\ Basic.error_box view = None
  /\ Basic.spinner view = false
  /\ Basic.input_disabled view = false
  /\ Basic.submit_disabled view = false
  /\ Basic.submit_label view = "Clone Website"
  /\ falsy_child (Basic.clonedHtml st') = Some "0".
Proof.
  apply (proj1 (@falsy_cloned_html_shows_no_panel reference_engine)
           example_url (always (Fulfilled zero_clone)) Basic.initial zero_clone
           [("cloned_html", JNum 0)]);
    reflexivity.
Defined.

(** The empty string for a clone: nothing at all is rendered for it. *)
Example empty_clone_looks_idle :
  let st' :=
    (run Themed.apply (always (Fulfilled empty_clone))
       (@Themed.handleSubmit reference_engine example_url) Themed.initial).1.1 in
  Themed.result (Themed.Home st') = None
  /\ Themed.error_box (Themed.Home st') = None
  /\ Themed.spinner (Themed.Home st') = None
  /\ falsy_child (Themed.clonedHtml st') = None.
Proof. repeat split. Qed.

Lemma at_most_one_panel_witness :
  exists pg,
    @Basic.steps reference_engine two_submissions Basic.mounted = Some pg
    /\ (basic_panels (Basic.Home (Basic.ui pg)) <= 1)%nat
    /\ Basic.spinner (Basic.Home (Basic.ui pg)) = Basic.loading (Basic.ui pg).
Proof.
  eexists. split.
  - vm_compute. reflexivity.
  - apply (proj1 (@at_most_one_panel reference_engine) two_submissions).
    vm_compute. reflexivity.
Defined.

Lemma no_result_actions_while_loading_witness :
  exists pg,
    @Themed.steps reference_engine themed_in_flight Themed.mounted = Some pg
    /\ Themed.result (Themed.Home (Themed.ui pg)) = None
    /\ @Themed.step reference_engine Themed.RawClicked pg = None
    /\ @Themed.step reference_engine Themed.DownloadClicked pg = None.
Proof.
  eexists. split; [reflexivity|].
  apply (@no_result_actions_while_loading reference_engine themed_in_flight);
    reflexivity.
Defined.

Lemma resubmission_is_always_possible_witness :
  exists pg pg' w,
    @Basic.steps reference_engine two_submissions Basic.mounted = Some pg
    /\ @Basic.step reference_engine Basic.Submitted pg = Some pg'
    /\ Basic.pending pg' = [w]
    /\ Basic.loading (Basic.ui pg') = true
    /\ Basic.error (Basic.ui pg') = None
    /\ Basic.clonedHtml (Basic.ui pg') = JNull
    /\ Basic.targetUrl (Basic.ui pg') = example_url.
Proof.
  eexists.
  destruct (proj1 (@resubmission_is_always_possible reference_engine)
              two_submissions _ eq_refl eq_refl eq_refl)
    as (pg' & w & Hstep & Hparked & Hloading & Herr & Hres & Hurl).
  exists pg', w. split; [reflexivity|]. repeat split; assumption.
Defined.

Lemma page_follows_the_handler_witness :
  @Basic.steps reference_engine
     (Basic.Submitted :: basic_answers (Fulfilled hello)) filled_in
  = Some {| Basic.ui :=
              {| Basic.targetUrl := example_url; Basic.loading := false;
                 Basic.clonedHtml := JStr markup; Basic.error := None |};
            Basic.pending := [] |}.
Proof.
  apply (proj1 (@page_follows_the_handler reference_engine) filled_in (Fulfilled hello));
    reflexivity.
Defined.

Lemma request_in_flight_ends_witness :
  exists pg w,
    @Basic.steps reference_engine in_flight Basic.mounted = Some pg
    /\ Basic.pending pg = [w]
    /\ forall o, exists pg1,
        @Basic.step reference_engine (basic_answer w o) pg = Some pg1
        /\ (basic_idle pg1
            \/ exists w1,
                Basic.pending pg1 = [w1]
                /\ forall o1, exists pg2,
                    @Basic.step reference_engine (basic_answer w1 o1) pg1 = Some pg2
                    /\ basic_idle pg2).
Proof.
  eexists.
  destruct (proj1 (@request_in_flight_ends reference_engine) in_flight _ eq_refl eq_refl)
    as (w & Hparked & Hends).
  exists w. split; [reflexivity|]. split; [exact Hparked|exact Hends].
Defined.

Lemma view_state_follows_its_controls_witness :
  exists pg,
    @Themed.steps reference_engine themed_visit Themed.mounted = Some pg
    /\ Themed.isDarkMode (Themed.ui pg) = true
    /\ Themed.showRawHtml (Themed.ui pg) = true
    /\ Themed.targetUrl (Themed.ui pg) = example_url.
Proof.
  eexists. split.
  - vm_compute. reflexivity.
  - apply (@view_state_follows_its_controls reference_engine themed_visit Themed.mounted).
    vm_compute. reflexivity.
Defined.

Lemma downloads_leave_only_files_witness :
  exists pg,
    @Themed.steps reference_engine themed_visit Themed.mounted = Some pg
    /\ length (saved (Themed.browser pg)) = 2%nat
    /\ next_url (Themed.browser pg) = 2%nat
    /\ Forall named_cloned_site (saved (Themed.browser pg))
    /\ object_urls (Themed.browser pg) = ∅
    /\ body_children (Themed.browser pg) = [].
Proof.
  eexists. split.
  - vm_compute. reflexivity.
  - apply (@downloads_leave_only_files reference_engine themed_visit).
    vm_compute. reflexivity.
Defined.

Lemma themed_view_is_basic_view_styled_witness :
  exists b t,
    @Basic.steps reference_engine two_submissions Basic.mounted = Some b
    /\ @Themed.steps reference_engine (map themed_event two_submissions) Themed.mounted
       = Some t
    /\ unstyled (Themed.Home (Themed.ui t)) = Basic.Home (Basic.ui b).
Proof.
  eexists _, _. split; [vm_compute; reflexivity|]. split; [vm_compute; reflexivity|].
  apply (proj2 (@themed_view_is_basic_view_styled reference_engine) two_submissions);
    vm_compute; reflexivity.
Defined.

(** ** The amended submit contract at concrete inputs *)

(** C1, as the specification states it, fails in its clause (f): a 200
    response whose JSON body is an object without [cloned_html] is a
    malformed response body in the specification's sense, yet the handler
    runs (a) to (d), reads the body, stores undefined into Result and
    resets loading, and never stores a message into Error. *)
Lemma malformed_body_is_not_always_a_failure :
  failure_in_spec (Fulfilled no_field)
  /\ run Basic.apply (always (Fulfilled no_field))
       (@Basic.handleSubmit reference_engine example_url) Basic.initial
     = ({| Basic.targetUrl := ""; Basic.loading := false;
           Basic.clonedHtml := JUndefined; Basic.error := None |},
        @opening reference_engine example_url
        ++ [ReadBody no_field; Did (SetClonedHtml JUndefined)]
        ++ [Did (SetLoading false)],
        None)
  /\ ~ @failure_message_claim reference_engine basic.
Proof.
  split; [|split].
  - right. right. exists (JObj [("title", JStr "Hi")]). split; reflexivity.
  - reflexivity.
  - intros Hclaim.
    destruct (Hclaim example_url (always (Fulfilled no_field)) Basic.initial)
      as [msg Herr].
    + right. right. exists (JObj [("title", JStr "Hi")]). split; reflexivity.
    + vm_compute in Herr. discriminate Herr.
Qed.

Lemma submit_side_effects_in_order_witness :
  @Success reference_engine (Fulfilled no_field) no_field JUndefined.
Proof.
  apply (proj2 (@submit_side_effects_in_order reference_engine)
           no_field (JObj [("title", JStr "Hi")])).
  - reflexivity.
  - reflexivity.
  - discriminate.
  - discriminate.
  - reflexivity.
Defined.
